(** * nx-rust: the cargo helpers of [packages/nx-rust/src/common]

    A shallow embedding of the helper module that turns executor options
    into a [cargo] command line, runs [cargo] as a child process, maps an
    executor identifier to a cargo subcommand and appends a member to the
    workspace manifest, followed by the properties proved about it.

    JavaScript values are modelled by their TypeScript types: an optional
    field is an [option], a string is a [string], the object used as a
    dictionary ([workspace.projects]) is a [gmap] on its own keys, an
    array is a [list].  Exceptions, the local array [args] and the lines
    written by [console.log] are threaded through a small monad. *)

From Stdlib Require Import ZArith Ascii Floats.SpecFloat.
From stdpp Require Import gmap strings list fin_maps pretty.

Local Open Scope string_scope.
Local Open Scope list_scope.
#[local] Set Warnings "-register-all".

(** ** JavaScript basics *)

(** Truthiness, as tested by [if (x)], [!x] and [&&]. *)
Class Truthy (A : Type) := truthy : A → bool.

#[export] Instance string_truthy : Truthy string :=
  fun s => match s with EmptyString => false | String _ _ => true end.

#[export] Instance bool_truthy : Truthy bool := fun b => b.

(** A number is falsy when it is zero. *)
#[export] Instance Z_truthy : Truthy Z := fun n => negb (n =? 0)%Z.

(** [undefined] and [null] are falsy. *)
#[export] Instance option_truthy `{Truthy A} : Truthy (option A) :=
  fun o => match o with Some a => truthy a | None => false end.

(** [x === 'literal'] for a value that is a string or [undefined]. *)
Definition strict_eq (x : option string) (lit : string) : bool :=
  match x with Some s => String.eqb s lit | None => false end.

(** [s.startsWith(p)]. *)
Definition startsWith (s p : string) : bool := String.prefix p s.

(** [s.replace(/^\+/, '')]: one leading plus sign is removed. *)
Definition replace_leading_plus (s : string) : string :=
  match s with
  | String "+"%char rest => rest
  | _ => s
  end.

(** [s.split(sep)] for a separator of one character: the pieces between
    the separators, in order; never the empty array. *)
Fixpoint split (sep : ascii) (s : string) : list string :=
  match s with
  | EmptyString => [EmptyString]
  | String c rest =>
      if Ascii.eqb c sep then EmptyString :: split sep rest
      else match split sep rest with
           | piece :: pieces => String c piece :: pieces
           | [] => [String c EmptyString]
           end
  end.

(** [xs.at(-1)]: the last element, [undefined] on the empty array. *)
Definition at_last {A} (xs : list A) : option A := last xs.

(** [xs.join(sep)]. *)
Fixpoint join (sep : string) (xs : list string) : string :=
  match xs with
  | [] => EmptyString
  | [x] => x
  | x :: rest => x +:+ sep +:+ join sep rest
  end.

(** What a [throw] or a rejected promise carries. *)
Inductive Exn :=
  | Error (message : string)      (* [new Error(message)] *)
  | TypeError                     (* raised by the engine: a property of
                                     [undefined], a call of a non-function *)
  | SystemError (code : string).  (* Node's error object of a failed spawn:
                                     [ENOENT], [EACCES], ... *)

(** ** getCargoCommandFromExecutor *)

Definition getCargoCommandFromExecutor (executor : string) : list string :=
  let target := at_last (split ":" executor) in
  let toReturn := [] in
  if strict_eq target "build" then toReturn ++ ["build"]
  else if strict_eq target "test" then toReturn ++ ["test"]
  else if strict_eq target "lint" then toReturn ++ ["clippy"]
  else if strict_eq target "run" then toReturn ++ ["run"]
  else if strict_eq target "nextest" then toReturn ++ ["nextest"; "run"]
  else toReturn.

(** ** wrapWithCargoWatch *)

(** The one-character string holding a double quote. *)
Definition dquote : string := String (ascii_of_nat 34) EmptyString.

Definition wrapWithCargoWatch (command : list string) : list string :=
  let wrappedCommand := dquote +:+ join " " ("cargo" :: command) +:+ dquote in
  ["watch"; "-cqs"; wrappedCommand].

(** ** The options and the executor context *)

(** Modelled from the spec: the option types of [./schema]
    ([FeatureSelection], [CompilationOptions], [OutputOptions],
    [DisplayOptions], [ManifestOptions]) are not part of the sources at
    hand; the fields and their types are those of the options schema, every
    one optional ([Partial]). *)
Record CargoOptions := {
  toolchain : option string;
  features : option string;
  noDefaultFeatures : option bool;
  target : option string;
  release : option bool;
  targetDir : option string;
  outDir : option string;
  verbose : option bool;
  veryVerbose : option bool;
  quiet : option bool;
  messageFormat : option string;
  locked : option bool;
  frozen : option bool;
  offline : option bool;
}.

Inductive ProjectType := application | library.

#[export] Instance ProjectType_eq_dec : EqDecision ProjectType.
Proof. solve_decision. Defined.

(** The fields of the devkit's [ProjectConfiguration], [Workspace] and
    [ExecutorContext] that the helpers read. *)
Record ProjectConfiguration := { projectType : option ProjectType }.

Record Workspace := { projects : gmap string ProjectConfiguration }.

Record ExecutorContext := {
  root : string;
  projectName : option string;
  targetName : option string;
  workspace : Workspace;
}.

(** The styling functions of [chalk] that the helpers call.  What they
    add around the text depends on the terminal. *)
Class Chalk := {
  chalk_bold_yellowBright_inverse : string → string;
  chalk_dim : string → string;
}.

(** ** Control: the array under construction, the console, exceptions *)

Record Frame := { args : list string; console : list string }.

Inductive Outcome (A : Type) :=
  | Normal (a : A) (fr : Frame)
  | Abrupt (e : Exn) (fr : Frame).
Arguments Normal {A} a fr.
Arguments Abrupt {A} e fr.

Definition M (A : Type) : Type := Frame → Outcome A.

#[export] Instance M_ret : MRet M := λ A a fr, Normal a fr.

#[export] Instance M_bind : MBind M := λ A B k m fr,
  match m fr with
  | Normal a fr' => k a fr'
  | Abrupt e fr' => Abrupt e fr'
  end.

Definition throw {A} (e : Exn) : M A := λ fr, Abrupt e fr.

(** [args.push(t1, ..., tn)]. *)
Definition push (tokens : list string) : M unit :=
  λ fr, Normal () {| args := args fr ++ tokens; console := console fr |}.

(** [args.unshift(t)]. *)
Definition unshift (token : string) : M unit :=
  λ fr, Normal () {| args := token :: args fr; console := console fr |}.

(** [args[0]], [undefined] on the empty array. *)
Definition arg0 : M (option string) := λ fr, Normal (args fr !! 0) fr.

(** [args[0] = t]; on the empty array the assignment creates the element. *)
Definition set_arg0 (token : string) : M unit :=
  λ fr, Normal () {| args := match args fr with
                             | [] => [token]
                             | _ :: _ => <[0:=token]> (args fr)
                             end;
                     console := console fr |}.

Definition get_args : M (list string) := λ fr, Normal (args fr) fr.

(** [console.log(line)]. *)
Definition log (line : string) : M unit :=
  λ fr, Normal () {| args := args fr; console := console fr ++ [line] |}.

(** [if (x) body], with [x] narrowed to its value inside the body. *)
Definition if_truthy {A} `{Truthy A} (x : option A) (body : A → M unit) : M unit :=
  match x with
  | Some a => if truthy a then body a else mret ()
  | None => mret ()
  end.

(** How a call ends, and what it printed. *)
Record Completion (A : Type) := { result : Exn + A; output : list string }.
Arguments result {A} _.
Arguments output {A} _.

(** A call starts with [const args = []] and an empty transcript; the
    array is local, so only the returned value survives the call. *)
Definition call {A} (body : M A) : Completion A :=
  match body {| args := []; console := [] |} with
  | Normal a fr => {| result := inr a; output := console fr |}
  | Abrupt e fr => {| result := inl e; output := console fr |}
  end.

(** ** parseCargoArgs *)

Definition parseCargoArgs_body `{Chalk}
    (opts : CargoOptions) (ctx : ExecutorContext) : M (list string) :=
  if_truthy (toolchain opts) (λ t, push ["+" +:+ t]);;
  name ← match projectName ctx with
         | Some n =>
             if truthy n then mret n
             else throw (Error "Expected project name to be non-null")
         | None => throw (Error "Expected project name to be non-null")
         end;
  binary ← (if strict_eq (targetName ctx) "build" then
              match projects (workspace ctx) !! name with
              | Some project =>
                  mret (bool_decide (projectType project = Some application))
              | None => throw TypeError
              end
            else mret false);
  (if binary : bool then push ["--bin"] else push ["-p"]);;
  push [name];;
  if_truthy (features opts) (λ f,
    if String.eqb f "all" then push ["--all-features"]
    else push ["--features"; f]);;
  if_truthy (noDefaultFeatures opts) (λ _, push ["--no-default-features"]);;
  if_truthy (target opts) (λ t, push ["--target"; t]);;
  if_truthy (release opts) (λ _, push ["--release"]);;
  if_truthy (targetDir opts) (λ d, push ["--target-dir"; d]);;
  if_truthy (outDir opts) (λ d,
    first ← arg0;
    (if negb (strict_eq first "+nightly") then
       match first with
       | None => throw TypeError
       | Some first =>
           if startsWith first "+" then
             let label := chalk_bold_yellowBright_inverse " WARNING " in
             let original := replace_leading_plus first in
             let message :=
               "'outDir' option can only be used with 'nightly' toolchain, " +:+
               "but toolchain '" +:+ original +:+ "' was already specified. " +:+
               "Overriding '" +:+ original +:+ "' => 'nightly'." in
             log (label +:+ " " +:+ message);;
             set_arg0 "+nightly"
           else unshift "+nightly"
       end
     else mret ());;
    push ["-Z"; "unstable-options"; "--out-dir"; d]);;
  if_truthy (verbose opts) (λ _, push ["-v"]);;
  if_truthy (veryVerbose opts) (λ _, push ["-vv"]);;
  if_truthy (quiet opts) (λ _, push ["-q"]);;
  if_truthy (messageFormat opts) (λ m, push ["--message-format"; m]);;
  if_truthy (locked opts) (λ _, push ["--locked"]);;
  if_truthy (frozen opts) (λ _, push ["--frozen"]);;
  if_truthy (offline opts) (λ _, push ["--offline"]);;
  get_args.

Definition parseCargoArgs `{Chalk}
    (opts : CargoOptions) (ctx : ExecutorContext) : Completion (list string) :=
  call (parseCargoArgs_body opts ctx).

(** ** runCargo *)

(** The options object handed to [spawn]. *)
Inductive Stdio := inherit | pipe | ignore.

Record SpawnRequest := {
  command : string;
  spawn_args : list string;
  cwd : string;
  shell : bool;
  stdio : Stdio;
}.

(** What the child process object emits.  [close] carries the exit code,
    or [null] together with the name of the signal that ended the child. *)
Inductive ChildEvent :=
  | on_error (err : Exn)
  | on_close (code : option Z) (signal : option string).

(** The operating system's side of [spawn]: the events of the child, in
    the order in which they are emitted. *)
Class ChildProcess := spawn : SpawnRequest → list ChildEvent.

Inductive Promise :=
  | Pending
  | Fulfilled
  | Rejected (reason : Exn).

(** [resolve()] and [reject(reason)] settle a pending promise and leave a
    settled one as it is. *)
Definition resolve (p : Promise) : Promise :=
  match p with Pending => Fulfilled | _ => p end.

Definition reject (reason : Exn) (p : Promise) : Promise :=
  match p with Pending => Rejected reason | _ => p end.

(** The two listeners registered by [runCargo]. *)
Definition runCargo_listener (ev : ChildEvent) (p : Promise) : Promise :=
  match ev with
  | on_error err => reject err p
  | on_close code _ =>
      match code with
      | Some n =>
          if truthy n
          then reject (Error ("Cargo failed with exit code " +:+ pretty n)) p
          else resolve p
      | None => resolve p
      end
  end.

Record CargoRun := {
  printed : list string;    (* the lines written to the console *)
  spawned : SpawnRequest;   (* the process that was started *)
  promise : Promise;        (* the returned promise, once the child is done *)
}.

Definition runCargo `{Chalk} `{ChildProcess}
    (args : list string) (ctx : ExecutorContext) : CargoRun :=
  let request := {| command := "cargo"; spawn_args := args; cwd := root ctx;
                    shell := true; stdio := inherit |} in
  {| printed := [chalk_dim ("> cargo " +:+ join " " args)];
     spawned := request;
     promise := foldl (λ p ev, runCargo_listener ev p) Pending (spawn request) |}.

(** ** updateWorkspaceMembers *)

Module Generator.

Record GeneratorOptions := {
  projectName : string;
  moduleName : string;
  projectRoot : string;
  projectDirectory : string;
  parsedTags : list string;
  edition : Z;
}.

(** The value of a parsed TOML document: what [@iarna/toml] builds. *)
Inductive TomlValue :=
  | TString (s : string)
  | TInteger (n : Z)
  | TFloat (x : spec_float)
  | TBoolean (b : bool)
  | TDatetime (iso : string)
  | TArray (items : list TomlValue)
  | TTable (entries : list (string * TomlValue)).

#[export] Instance TomlValue_truthy : Truthy TomlValue := λ v,
  match v with
  | TString s => truthy s
  | TInteger n => truthy n
  | TFloat x =>
      match x with
      | S754_zero _ | S754_nan => false
      | S754_infinity _ | S754_finite _ _ _ => true
      end
  | TBoolean b => b
  | TDatetime _ | TArray _ | TTable _ => true
  end.

Fixpoint assoc (key : string) (entries : list (string * TomlValue)) : option TomlValue :=
  match entries with
  | [] => None
  | (k, v) :: rest => if String.eqb k key then Some v else assoc key rest
  end.

(** [v.key] for a key of the document ([workspace], [members]): the entry
    of a table, [undefined] on every other value. *)
Definition property (v : TomlValue) (key : string) : option TomlValue :=
  match v with
  | TTable entries => assoc key entries
  | _ => None
  end.

Fixpoint assoc_set (key : string) (v : TomlValue)
    (entries : list (string * TomlValue)) : list (string * TomlValue) :=
  match entries with
  | [] => [(key, v)]
  | (k, w) :: rest =>
      if String.eqb k key then (k, v) :: rest else (k, w) :: assoc_set key v rest
  end.

(** The table with the entry at [key] replaced, in place. *)
Definition with_property (t : TomlValue) (key : string) (v : TomlValue) : TomlValue :=
  match t with
  | TTable entries => TTable (assoc_set key v entries)
  | _ => t
  end.

(** The two functions taken from [@iarna/toml]; both may throw.  [parse]
    receives what [host.read] returned, [null] for a missing file. *)
Class Toml := {
  parseToml : option string → Exn + TomlValue;
  stringifyToml : TomlValue → Exn + string;
}.

(** The constant of [./constants]: the path of the workspace manifest. *)
Class Constants := { CARGO_TOML : string }.

(** The devkit's [Tree], as far as [read] and [write] go. *)
Abbreviation Tree := (gmap string string).

#[export] Instance result_ret : MRet (sum Exn) := λ A a, inr a.
#[export] Instance result_bind : MBind (sum Exn) := λ A B k m,
  match m with inr a => k a | inl e => inl e end.

Definition updateWorkspaceMembers `{Toml} `{Constants}
    (host : Tree) (opts : GeneratorOptions) : Exn + Tree :=
  existingToml ← parseToml (host !! CARGO_TOML);
  workspace ← match property existingToml "workspace" with
               | Some w => inr w
               | None => inl TypeError
               end;
  existingToml ←
    match property workspace "members" with
    | Some members =>
        if truthy members then
          match members with
          | TArray items =>
              let members := TArray (items ++ [TString (projectRoot opts)]) in
              inr (with_property existingToml "workspace"
                     (with_property workspace "members" members))
          | _ => inl TypeError
          end
        else inr existingToml
    | None => inr existingToml
    end;
  updated ← stringifyToml existingToml;
  inr (<[CARGO_TOML := updated]> host).

(** Concrete inputs. *)

(** A manifest with a [workspace] table that lists no members. *)
Definition bare_manifest : TomlValue :=
  TTable [("workspace", TTable [("resolver", TString "2")])].

(** A stand-in for the TOML library that knows this one document. *)
Definition bare_toml : Toml :=
  {| parseToml := λ content,
       match content with
       | Some _ => inr bare_manifest
       | None => inl TypeError
       end;
     stringifyToml := λ _, inr "[workspace] resolver = 2" |}.

Definition cargo_toml_path : Constants := {| CARGO_TOML := "Cargo.toml" |}.

Definition new_library : GeneratorOptions :=
  {| projectName := "core"; moduleName := "core"; projectRoot := "libs/core";
     projectDirectory := "core"; parsedTags := []; edition := 2021 |}.

(** A manifest whose [workspace] table lists one member. *)
Definition one_member_manifest : TomlValue :=
  TTable [("workspace", TTable [("members", TArray [TString "apps/app"])])].

(** A stand-in for the TOML library: it parses every file to that
    manifest and writes a document as a fixed line. *)
Definition one_member_toml : Toml :=
  {| parseToml := λ content,
       match content with
       | Some _ => inr one_member_manifest
       | None => inl TypeError
       end;
     stringifyToml := λ _, inr "[workspace] members = [...]" |}.

End Generator.

(** ** The argument vector in closed form *)

(** The tokens one [if (x) args.push(...)] statement contributes. *)
Definition tokens_if {A} `{Truthy A} (x : option A) (f : A → list string) : list string :=
  match x with
  | Some a => if truthy a then f a else []
  | None => []
  end.

Definition toolchain_tokens (opts : CargoOptions) : list string :=
  tokens_if (toolchain opts) (λ t, ["+" +:+ t]).

Definition feature_tokens (opts : CargoOptions) : list string :=
  tokens_if (features opts) (λ f,
    if String.eqb f "all" then ["--all-features"] else ["--features"; f]).

Definition compilation_tokens (opts : CargoOptions) : list string :=
  tokens_if (noDefaultFeatures opts) (λ _, ["--no-default-features"]) ++
  tokens_if (target opts) (λ t, ["--target"; t]) ++
  tokens_if (release opts) (λ _, ["--release"]) ++
  tokens_if (targetDir opts) (λ d, ["--target-dir"; d]).

Definition outDir_tokens (opts : CargoOptions) : list string :=
  tokens_if (outDir opts) (λ d, ["-Z"; "unstable-options"; "--out-dir"; d]).

Definition display_tokens (opts : CargoOptions) : list string :=
  tokens_if (verbose opts) (λ _, ["-v"]) ++
  tokens_if (veryVerbose opts) (λ _, ["-vv"]) ++
  tokens_if (quiet opts) (λ _, ["-q"]) ++
  tokens_if (messageFormat opts) (λ m, ["--message-format"; m]) ++
  tokens_if (locked opts) (λ _, ["--locked"]) ++
  tokens_if (frozen opts) (λ _, ["--frozen"]) ++
  tokens_if (offline opts) (λ _, ["--offline"]).

(** The toolchain token that ends up in front: [+nightly] as soon as
    [outDir] is given, the requested toolchain otherwise. *)
Definition leading_tokens (opts : CargoOptions) : list string :=
  if truthy (outDir opts) then ["+nightly"] else toolchain_tokens opts.

Definition selection_flag (binary : bool) : string :=
  if binary then "--bin" else "-p".

Definition cargo_args (opts : CargoOptions) (binary : bool) (name : string) : list string :=
  leading_tokens opts ++ [selection_flag binary; name] ++
  feature_tokens opts ++ compilation_tokens opts ++
  outDir_tokens opts ++ display_tokens opts.

(** The line printed when [outDir] overrides the toolchain [original]. *)
Definition override_warning `{Chalk} (original : string) : string :=
  chalk_bold_yellowBright_inverse " WARNING " +:+ " " +:+
  ("'outDir' option can only be used with 'nightly' toolchain, " +:+
   "but toolchain '" +:+ original +:+ "' was already specified. " +:+
   "Overriding '" +:+ original +:+ "' => 'nightly'.").

Definition cargo_warnings `{Chalk} (opts : CargoOptions) : list string :=
  if truthy (outDir opts) then
    tokens_if (toolchain opts) (λ t,
      if String.eqb t "nightly" then [] else [override_warning t])
  else [].

(** Whether the binary-selection flag is chosen; [None] when reading the
    kind of an unregistered project throws. *)
Definition selects_binary (ctx : ExecutorContext) (name : string) : option bool :=
  if strict_eq (targetName ctx) "build" then
    match projects (workspace ctx) !! name with
    | Some project => Some (bool_decide (projectType project = Some application))
    | None => None
    end
  else Some false.

(** A context on which [parseCargoArgs] can run: it names the package, and
    a build target finds the project registered in the workspace. *)
Definition valid_context (ctx : ExecutorContext) (name : string) : Prop :=
  projectName ctx = Some name ∧ truthy name = true ∧
  (strict_eq (targetName ctx) "build" = true →
   is_Some (projects (workspace ctx) !! name)).

(** [a] occurs in [l] immediately followed by [b]. *)
Definition adjacent {A} (a b : A) (l : list A) : Prop :=
  ∃ pre post, l = pre ++ a :: b :: post.

(** [block] occurs in [l] as a run of consecutive tokens. *)
Definition contains_run {A} (block l : list A) : Prop :=
  ∃ pre post, l = pre ++ block ++ post.

Definition plus_prefixed (token : string) : Prop := startsWith token "+" = true.

Definition plus_free (value : option string) : Prop :=
  match value with Some v => ¬ plus_prefixed v | None => True end.

(** A statement that only appends [tokens] to [args]. *)
Definition appends (m : M unit) (tokens : list string) : Prop :=
  ∀ fr, m fr = Normal () {| args := args fr ++ tokens; console := console fr |}.

(** ** The vocabulary of the properties *)

(** The kind under which the workspace registers the package. *)
Definition package_kind (ctx : ExecutorContext) (name : string) (kind : ProjectType) : Prop :=
  ∃ project, projects (workspace ctx) !! name = Some project ∧
             projectType project = Some kind.

Definition not_plus (token : string) : Prop := ¬ plus_prefixed token.

(** The strings the caller supplies and [parseCargoArgs] copies into the
    vector do not start with a plus sign. *)
Record plus_free_values (opts : CargoOptions) (ctx : ExecutorContext) : Prop := {
  pf_name : plus_free (projectName ctx);
  pf_features : plus_free (features opts);
  pf_target : plus_free (target opts);
  pf_targetDir : plus_free (targetDir opts);
  pf_outDir : plus_free (outDir opts);
  pf_messageFormat : plus_free (messageFormat opts);
}.

(** None of the strings that other options copy into the vector is the
    token [lit]. *)
Record other_values_differ (lit : string) (opts : CargoOptions) (name : string) : Prop := {
  od_name : name ≠ lit;
  od_target : target opts ≠ Some lit;
  od_targetDir : targetDir opts ≠ Some lit;
  od_outDir : outDir opts ≠ Some lit;
  od_messageFormat : messageFormat opts ≠ Some lit;
}.

(** The action label of an executor: what follows its last colon. *)
Definition action_label (executor : string) : option string :=
  at_last (split ":" executor).

(** Whether the character [sep] occurs in [s]. *)
Fixpoint occurs (sep : ascii) (s : string) : bool :=
  match s with
  | EmptyString => false
  | String c rest => Ascii.eqb c sep || occurs sep rest
  end.

(** ** Concrete inputs *)

(** [chalk] without colour support: the text comes back as it is. *)
Definition plain_chalk : Chalk :=
  {| chalk_bold_yellowBright_inverse := λ text, text; chalk_dim := λ text, text |}.

(** The options object [{}]. *)
Definition no_options : CargoOptions :=
  {| toolchain := None; features := None; noDefaultFeatures := None;
     target := None; release := None; targetDir := None; outDir := None;
     verbose := None; veryVerbose := None; quiet := None;
     messageFormat := None; locked := None; frozen := None; offline := None |}.

(** A workspace with the application [app] and the library [core]. *)
Definition sample_workspace : Workspace :=
  {| projects := {[ "app" := {| projectType := Some application |};
                    "core" := {| projectType := Some library |} ]} |}.

Definition sample_context (name target : string) : ExecutorContext :=
  {| root := "/workspace"; projectName := Some name;
     targetName := Some target; workspace := sample_workspace |}.

(** Options for a release build with two features. *)
Definition release_options : CargoOptions :=
  {| toolchain := None; features := Some "serde,cli"; noDefaultFeatures := None;
     target := None; release := Some true; targetDir := Some "dist/target";
     outDir := None; verbose := None; veryVerbose := None; quiet := None;
     messageFormat := Some "json"; locked := Some true; frozen := None;
     offline := None |}.

(** Options that only redirect cargo's target directory. *)
Definition plus_targetDir_options : CargoOptions :=
  {| toolchain := None; features := None; noDefaultFeatures := None;
     target := None; release := None; targetDir := Some "+build";
     outDir := None; verbose := None; veryVerbose := None; quiet := None;
     messageFormat := None; locked := None; frozen := None; offline := None |}.

(** Options asking for an output directory on the stable toolchain. *)
Definition stable_outDir_options : CargoOptions :=
  {| toolchain := Some "stable"; features := None; noDefaultFeatures := None;
     target := None; release := Some true; targetDir := None;
     outDir := Some "dist"; verbose := None; veryVerbose := None; quiet := None;
     messageFormat := None; locked := None; frozen := None; offline := None |}.

(** The same request with an output directory named [+dist]. *)
Definition stable_plus_outDir_options : CargoOptions :=
  {| toolchain := Some "stable"; features := None; noDefaultFeatures := None;
     target := None; release := None; targetDir := None;
     outDir := Some "+dist"; verbose := None; veryVerbose := None; quiet := None;
     messageFormat := None; locked := None; frozen := None; offline := None |}.

(** Options asking for an output directory, with no toolchain. *)
Definition outDir_options : CargoOptions :=
  {| toolchain := None; features := None; noDefaultFeatures := None;
     target := None; release := None; targetDir := None;
     outDir := Some "dist"; verbose := Some true; veryVerbose := None;
     quiet := None; messageFormat := None; locked := None; frozen := None;
     offline := None |}.

Definition unnamed_context : ExecutorContext :=
  {| root := "/workspace"; projectName := None; targetName := Some "build";
     workspace := sample_workspace |}.

Definition all_features_options : CargoOptions :=
  {| toolchain := None; features := Some "all"; noDefaultFeatures := None;
     target := None; release := None; targetDir := None; outDir := None;
     verbose := None; veryVerbose := None; quiet := None;
     messageFormat := None; locked := None; frozen := None; offline := None |}.

Definition two_features_options : CargoOptions :=
  {| toolchain := None; features := Some "x,y"; noDefaultFeatures := None;
     target := None; release := None; targetDir := None; outDir := None;
     verbose := None; veryVerbose := None; quiet := None;
     messageFormat := None; locked := None; frozen := None; offline := None |}.

(** All features, and a target directory named like the features flag. *)
Definition all_features_odd_targetDir : CargoOptions :=
  {| toolchain := None; features := Some "all"; noDefaultFeatures := None;
     target := None; release := None; targetDir := Some "--features";
     outDir := None; verbose := None; veryVerbose := None; quiet := None;
     messageFormat := None; locked := None; frozen := None; offline := None |}.

(** A child that exits with [code]. *)
Definition exits_with (code : Z) : ChildProcess :=
  λ _, [on_close (Some code) None].

(** A child ended by [signal]: no exit code. *)
Definition killed_by (signal : string) : ChildProcess :=
  λ _, [on_close None (Some signal)].

(** A spawn that fails with [err]; [close] follows with code [-2], as Node
    reports it for a process that never started. *)
Definition fails_to_spawn (err : Exn) : ChildProcess :=
  λ _, [on_error err; on_close (Some (-2)%Z) None].

(** ** Variations of the inputs of parseCargoArgs *)

(** The same options with another toolchain. *)
Definition with_toolchain (t : option string) (opts : CargoOptions) : CargoOptions :=
  {| toolchain := t; features := features opts;
     noDefaultFeatures := noDefaultFeatures opts; target := target opts;
     release := release opts; targetDir := targetDir opts;
     outDir := outDir opts; verbose := verbose opts;
     veryVerbose := veryVerbose opts; quiet := quiet opts;
     messageFormat := messageFormat opts; locked := locked opts;
     frozen := frozen opts; offline := offline opts |}.

(** The same context in another workspace, rooted elsewhere. *)
Definition relocated (r : string) (w : Workspace) (ctx : ExecutorContext) : ExecutorContext :=
  {| root := r; projectName := projectName ctx;
     targetName := targetName ctx; workspace := w |}.

(** A falsy value is replaced by an absent one. *)
Definition drop_falsy {A} `{Truthy A} (x : option A) : option A :=
  if truthy x then x else None.

Definition without_falsy (opts : CargoOptions) : CargoOptions :=
  {| toolchain := drop_falsy (toolchain opts);
     features := drop_falsy (features opts);
     noDefaultFeatures := drop_falsy (noDefaultFeatures opts);
     target := drop_falsy (target opts);
     release := drop_falsy (release opts);
     targetDir := drop_falsy (targetDir opts);
     outDir := drop_falsy (outDir opts);
     verbose := drop_falsy (verbose opts);
     veryVerbose := drop_falsy (veryVerbose opts);
     quiet := drop_falsy (quiet opts);
     messageFormat := drop_falsy (messageFormat opts);
     locked := drop_falsy (locked opts);
     frozen := drop_falsy (frozen opts);
     offline := drop_falsy (offline opts) |}.

(** How a call of [parseCargoArgs] ends, case by case. *)
Definition parseCargoArgs_outcome `{Chalk}
    (opts : CargoOptions) (ctx : ExecutorContext) : Completion (list string) :=
  let no_name :=
    {| result := inl (Error "Expected project name to be non-null");
       output := [] |} in
  match projectName ctx with
  | Some name =>
      if truthy name then
        match selects_binary ctx name with
        | Some binary =>
            {| result := inr (cargo_args opts binary name);
               output := cargo_warnings opts |}
        | None => {| result := inl TypeError; output := [] |}
        end
      else no_name
  | None => no_name
  end.

(** ** The members of the manifest *)

Module Members.
Import Generator.

(** [doc.workspace.members] when it is an array. *)
Definition members_of (doc : TomlValue) : option (list TomlValue) :=
  match property doc "workspace" ≫= λ w, property w "members" with
  | Some (TArray items) => Some items
  | _ => None
  end.

(** The document after [doc.workspace.members.push(root)]. *)
Definition with_member (root : string) (doc : TomlValue) : TomlValue :=
  match property doc "workspace" with
  | Some ws =>
      match property ws "members" with
      | Some (TArray items) =>
          with_property doc "workspace"
            (with_property ws "members" (TArray (items ++ [TString root])))
      | _ => doc
      end
  | None => doc
  end.

(** The keys of a table, in the order of the document. *)
Definition keys (v : TomlValue) : list string :=
  match v with
  | TTable entries => entries.*1
  | _ => []
  end.

(** A small manifest format for examples: the file is the list of the
    members, separated by commas. *)
Definition members_text (items : list TomlValue) : string :=
  join "," (map (λ v, match v with TString s => s | _ => EmptyString end) items).

Definition line_toml : Toml :=
  {| parseToml := λ content,
       match content with
       | Some text =>
           inr (TTable [("workspace",
                         TTable [("members", TArray (TString <$> split "," text))])])
       | None => inl TypeError
       end;
     stringifyToml := λ doc,
       match members_of doc with
       | Some items => inr (members_text items)
       | None => inl TypeError
       end |}.

(** A library that parses every file to [doc] and writes every document
    as [text]. *)
Definition constant_toml (doc : TomlValue) (text : string) : Toml :=
  {| parseToml := λ content,
       match content with
       | Some _ => inr doc
       | None => inl TypeError
       end;
     stringifyToml := λ _, inr text |}.

(** A manifest of a package that is also a workspace. *)
Definition package_manifest : TomlValue :=
  TTable [("package", TTable [("name", TString "root")]);
          ("workspace", TTable [("resolver", TString "2");
                                ("members", TArray [TString "apps/app"]);
                                ("exclude", TArray [])])].

(** A manifest whose [members] is the empty string. *)
Definition empty_string_members : TomlValue :=
  TTable [("workspace", TTable [("members", TString EmptyString)])].


Definition second_library : GeneratorOptions :=
  {| projectName := "util"; moduleName := "util"; projectRoot := "libs/util";
     projectDirectory := "util"; parsedTags := []; edition := 2021 |}.

(** A tree with the manifest and one more file. *)
Definition sample_tree : gmap string string :=
  {[ "Cargo.toml" := "apps/app"; "README.md" := "# workspace" ]}.

End Members.

(** ** cargoNames and normalizeGeneratorOptions *)

Module Naming.

(** What the devkit's [names] returns. *)
Record NrwlNames := {
  nrwl_name : string;
  nrwl_className : string;
  nrwl_propertyName : string;
  nrwl_constantName : string;
  nrwl_fileName : string;
}.

Record WorkspaceLayout := { appsDir : string; libsDir : string }.

(** The two functions taken from [@nrwl/devkit]. *)
Class Devkit := {
  nrwlNames : string → NrwlNames;
  nrwlGetWorkspaceLayout : gmap string string → WorkspaceLayout;
}.

(** The string methods of the engine whose result depends on Unicode
    tables. *)
Class StringMethods := {
  toLowerCase : string → string;
  trim : string → string;
}.

Record Names := {
  name : string;
  className : string;
  propertyName : string;
  constantName : string;
  fileName : string;
  snakeName : string;
}.

Definition cargoNames `{Devkit} `{StringMethods} (name : string) : Names :=
  let result := nrwlNames name in
  {| name := nrwl_name result;
     className := nrwl_className result;
     propertyName := nrwl_propertyName result;
     constantName := nrwl_constantName result;
     fileName := nrwl_fileName result;
     snakeName := toLowerCase (nrwl_constantName result) |}.

End Naming.

Module Normalize.
Import Generator Naming.

(** The fields of [GeneratorCLIOptions], read from any type that extends
    it. *)
Class GeneratorCLIOptions (T : Type) := {
  name : T → string;
  directory : T → option string;
  tags : T → option string;
  edition : T → option Z;
}.

(** A character of the class [[-_a-zA-Z0-9]]. *)
Definition name_character (c : ascii) : bool :=
  let n := nat_of_ascii c in
  Ascii.eqb c "-" || Ascii.eqb c "_" ||
  (Nat.leb 97 n && Nat.leb n 122) || (Nat.leb 65 n && Nat.leb n 90) ||
  (Nat.leb 48 n && Nat.leb n 57).

Fixpoint every_character (p : ascii → bool) (s : string) : bool :=
  match s with
  | EmptyString => true
  | String c rest => p c && every_character p rest
  end.

(** [/^[-_a-zA-Z0-9]+$/.test(s)]. *)
Definition test_name_pattern (s : string) : bool :=
  match s with
  | EmptyString => false
  | String _ _ => every_character name_character s
  end.

(** The object [{ ...opts, projectName, ... }]: the options as they came,
    and the computed fields, which come last and win ([edition]). *)
Definition normalizeGeneratorOptions {T} `{GeneratorCLIOptions T}
    `{Devkit} `{StringMethods}
    (projectType : ProjectType) (host : gmap string string) (opts : T)
    : T * GeneratorOptions :=
  let layout := nrwlGetWorkspaceLayout host in
  let names := cargoNames (name opts) in
  let moduleName := snakeName names in
  let projectName :=
    if test_name_pattern (name opts) then name opts else snakeName names in
  let fileName :=
    if test_name_pattern (name opts) then name opts else fileName names in
  let rootDir :=
    match projectType with
    | application => appsDir layout
    | library => libsDir layout
    end in
  let projectDirectory :=
    match directory opts with
    | Some d =>
        if truthy d then nrwl_fileName (nrwlNames d) +:+ "/" +:+ fileName
        else fileName
    | None => fileName
    end in
  let projectRoot := rootDir +:+ "/" +:+ projectDirectory in
  let parsedTags :=
    match tags opts with
    | Some t => trim <$> split "," t
    | None => []
    end in
  let edition :=
    match edition opts with
    | Some e => e
    | None => 2021%Z
    end in
  (opts,
   {| Generator.projectName := projectName;
      Generator.moduleName := moduleName;
      Generator.projectRoot := projectRoot;
      Generator.projectDirectory := projectDirectory;
      Generator.parsedTags := parsedTags;
      Generator.edition := edition |}).

(** How often the character [sep] occurs in [s]. *)
Fixpoint occurrences (sep : ascii) (s : string) : nat :=
  match s with
  | EmptyString => 0
  | String c rest => (if Ascii.eqb c sep then 1 else 0) + occurrences sep rest
  end.

End Normalize.

Module NormalizeSamples.
Import Generator Naming Normalize.

(** The plain options object of the command line. *)
Record CLIOptions := {
  cli_name : string;
  cli_directory : option string;
  cli_tags : option string;
  cli_edition : option Z;
}.

Definition CLIOptions_fields : GeneratorCLIOptions CLIOptions :=
  {| name := cli_name; directory := cli_directory;
     tags := cli_tags; edition := cli_edition |}.

(** A devkit that leaves names as they are, with the usual layout. *)
Definition plain_devkit : Devkit :=
  {| nrwlNames := λ s,
       {| nrwl_name := s; nrwl_className := s; nrwl_propertyName := s;
          nrwl_constantName := s; nrwl_fileName := s |};
     nrwlGetWorkspaceLayout := λ _, {| appsDir := "apps"; libsDir := "libs" |} |}.

Definition plain_strings : StringMethods :=
  {| toLowerCase := λ s, s; trim := λ s, s |}.

Definition my_crate : CLIOptions :=
  {| cli_name := "my_crate-2"; cli_directory := Some "tools";
     cli_tags := Some "rust, cli"; cli_edition := None |}.

End NormalizeSamples.

(** * Properties *)

(** ** Control *)

Lemma bind_ret {A B} (a : A) (k : A → M B) fr : (mret a ≫= k) fr = k a fr.
Proof. reflexivity. Qed.

Lemma bind_throw {A B} (e : Exn) (k : A → M B) fr :
  (throw e ≫= k) fr = Abrupt e fr.
Proof. reflexivity. Qed.

Lemma bind_appends {B} m tokens (k : unit → M B) fr :
  appends m tokens →
  (m ≫= k) fr = k () {| args := args fr ++ tokens; console := console fr |}.
Proof. intros Hm. unfold mbind, M_bind. now rewrite Hm. Qed.

Lemma appends_push tokens : appends (push tokens) tokens.
Proof. intros fr. reflexivity. Qed.

Lemma appends_skip : appends (mret ()) [].
Proof. intros [a c]. unfold mret, M_ret. simpl. now rewrite app_nil_r. Qed.

Lemma appends_if (c : bool) m1 m2 t1 t2 :
  appends m1 t1 → appends m2 t2 →
  appends (if c then m1 else m2) (if c then t1 else t2).
Proof. now destruct c. Qed.

Lemma appends_if_truthy {A} `{Truthy A} (x : option A) body f :
  (∀ a, appends (body a) (f a)) → appends (if_truthy x body) (tokens_if x f).
Proof.
  intros Hbody. unfold if_truthy, tokens_if.
  destruct x as [a|]; [destruct (truthy a)|]; auto using appends_skip.
Qed.

Ltac solve_appends :=
  repeat first [ apply appends_push
               | apply appends_skip
               | apply appends_if_truthy; intros ?
               | apply appends_if ].

Ltac step :=
  first [ rewrite bind_ret
        | erewrite bind_appends by solve_appends ].

(** ** The argument vector: the closed form *)

Lemma truthy_Some {A} `{Truthy A} (x : option A) :
  truthy x = true → ∃ a, x = Some a ∧ truthy a = true.
Proof. destruct x as [a|]; [eauto | discriminate]. Qed.

Lemma if_truthy_true {A} `{Truthy A} (x : option A) a body :
  x = Some a → truthy a = true → if_truthy x body = body a.
Proof. intros -> Ha. unfold if_truthy. now rewrite Ha. Qed.

Lemma if_truthy_false {A} `{Truthy A} (x : option A) body :
  truthy x = false → if_truthy x body = mret ().
Proof.
  destruct x as [a|]; [|reflexivity]. intros Ha.
  change (truthy a = false) in Ha. unfold if_truthy. now rewrite Ha.
Qed.

Lemma tokens_if_true {A} `{Truthy A} (x : option A) a f :
  x = Some a → truthy a = true → tokens_if x f = f a.
Proof. intros -> Ha. unfold tokens_if. now rewrite Ha. Qed.

Lemma tokens_if_false {A} `{Truthy A} (x : option A) f :
  truthy x = false → tokens_if x f = [].
Proof.
  destruct x as [a|]; [|reflexivity]. intros Ha.
  change (truthy a = false) in Ha. unfold tokens_if. now rewrite Ha.
Qed.

Lemma bind_assoc {A B C} (m : M A) (k1 : A → M B) (k2 : B → M C) fr :
  ((m ≫= k1) ≫= k2) fr = (m ≫= λ a, k1 a ≫= k2) fr.
Proof. unfold mbind, M_bind. now destruct (m fr). Qed.

Lemma bind_arg0 {B} (k : option string → M B) fr :
  (arg0 ≫= k) fr = k (args fr !! 0) fr.
Proof. reflexivity. Qed.

Lemma bind_log {B} line (k : unit → M B) fr :
  (log line ≫= k) fr = k () {| args := args fr; console := console fr ++ [line] |}.
Proof. reflexivity. Qed.

Lemma bind_unshift {B} token (k : unit → M B) fr :
  (unshift token ≫= k) fr = k () {| args := token :: args fr; console := console fr |}.
Proof. reflexivity. Qed.

Lemma bind_set_arg0 {B} token (k : unit → M B) first rest c :
  (set_arg0 token ≫= k) {| args := first :: rest; console := c |} =
  k () {| args := token :: rest; console := c |}.
Proof. reflexivity. Qed.

Lemma startsWith_plus t : startsWith (String "+" t) "+" = true.
Proof. now destruct t. Qed.

Ltac finish :=
  repeat (step; cbn [args console]);
  unfold get_args, feature_tokens, compilation_tokens, display_tokens, selection_flag;
  cbn [args console app]; rewrite <- ?app_assoc; reflexivity.

Section ClosedForm.
Context `{Chalk}.

(** On a context that names the package and finds the project, the call
    returns the closed form and prints the warnings of the closed form. *)
Lemma parseCargoArgs_returns opts ctx name binary :
  projectName ctx = Some name → truthy name = true →
  selects_binary ctx name = Some binary →
  parseCargoArgs opts ctx =
    {| result := inr (cargo_args opts binary name); output := cargo_warnings opts |}.
Proof.
  intros Hname Hset Hbin.
  unfold parseCargoArgs, call, parseCargoArgs_body.
  rewrite Hname, Hset.
  step. step.
  assert (Hsel : ∀ B (k : bool → M B) fr,
    ((if strict_eq (targetName ctx) "build" then
       match projects (workspace ctx) !! name with
       | Some project => mret (bool_decide (projectType project = Some application))
       | None => throw TypeError
       end
     else mret false) ≫= k) fr = k binary fr).
  { intros B k fr. unfold selects_binary in Hbin.
    destruct (strict_eq (targetName ctx) "build").
    - destruct (projects (workspace ctx) !! name); [|discriminate].
      injection Hbin as <-. reflexivity.
    - injection Hbin as <-. reflexivity. }
  rewrite Hsel. clear Hsel.
  do 7 (step; cbn [args console]).
  unfold cargo_args, cargo_warnings, leading_tokens, toolchain_tokens, outDir_tokens.
  destruct (truthy (outDir opts)) eqn:Hout.
  - destruct (truthy_Some _ Hout) as (d & Hd & Htd).
    rewrite (if_truthy_true _ _ _ Hd Htd), (tokens_if_true _ _ _ Hd Htd).
    rewrite bind_assoc, bind_arg0. cbn [args console].
    destruct (truthy (toolchain opts)) eqn:Htc.
    + destruct (truthy_Some _ Htc) as (t & Ht & Htt).
      rewrite !(tokens_if_true _ _ _ Ht Htt).
      change ("+" +:+ t) with (String "+" t).
      destruct binary; cbn [app lookup list_lookup];
        rewrite startsWith_plus; simpl (strict_eq _ _);
        simpl (replace_leading_plus _);
        (destruct (String.eqb_spec t "nightly") as [->|Hne]; cbn [negb]);
        repeat (first [rewrite bind_assoc | rewrite bind_log | rewrite bind_set_arg0];
                cbn [args console app]);
        finish.
    + rewrite !(tokens_if_false _ _ Htc).
      destruct binary; cbn [app lookup list_lookup];
        simpl (strict_eq _ _); cbn [negb]; simpl (startsWith _ _); cbv iota;
        rewrite ?bind_assoc, ?bind_unshift; cbn [args console app];
        finish.
  - rewrite (if_truthy_false _ _ Hout), (tokens_if_false _ _ Hout).
    destruct binary; finish.
Qed.

(** Without a package name the call throws before anything is printed. *)
Lemma parseCargoArgs_no_name opts ctx :
  truthy (projectName ctx) = false →
  parseCargoArgs opts ctx =
    {| result := inl (Error "Expected project name to be non-null"); output := [] |}.
Proof.
  intros Hname. unfold parseCargoArgs, call, parseCargoArgs_body.
  step. cbn [args console].
  destruct (projectName ctx) as [n|]; [change (truthy n = false) in Hname; rewrite Hname|];
    now rewrite bind_throw.
Qed.

(** Inside the call the toolchain token is already in [args] when the
    check of the name throws; the array is local and is dropped. *)
Lemma missing_name_frame opts ctx :
  truthy (projectName ctx) = false →
  parseCargoArgs_body opts ctx {| args := []; console := [] |} =
    Abrupt (Error "Expected project name to be non-null")
           {| args := toolchain_tokens opts; console := [] |}.
Proof.
  intros Hname. unfold parseCargoArgs_body.
  step. cbn [args console app].
  destruct (projectName ctx) as [n|]; [change (truthy n = false) in Hname; rewrite Hname|];
    now rewrite bind_throw.
Qed.

(** A build target whose project the workspace does not register: reading
    the kind of [undefined] throws. *)
Lemma parseCargoArgs_unregistered opts ctx name :
  projectName ctx = Some name → truthy name = true →
  selects_binary ctx name = None →
  parseCargoArgs opts ctx = {| result := inl TypeError; output := [] |}.
Proof.
  intros Hname Hset Hbin. unfold parseCargoArgs, call, parseCargoArgs_body.
  rewrite Hname, Hset. step. step. cbn [args console].
  unfold selects_binary in Hbin.
  destruct (strict_eq (targetName ctx) "build"); [|discriminate].
  destruct (projects (workspace ctx) !! name); [discriminate|].
  now rewrite bind_throw.
Qed.

(** Every returned vector is the closed form. *)
Lemma parseCargoArgs_inr opts ctx args :
  result (parseCargoArgs opts ctx) = inr args →
  ∃ name binary, projectName ctx = Some name ∧ truthy name = true ∧
    selects_binary ctx name = Some binary ∧ args = cargo_args opts binary name.
Proof.
  intros Hres.
  destruct (truthy (projectName ctx)) eqn:Hname.
  - destruct (truthy_Some _ Hname) as (name & Hn & Hset).
    destruct (selects_binary ctx name) as [binary|] eqn:Hbin.
    + rewrite (parseCargoArgs_returns _ _ _ _ Hn Hset Hbin) in Hres.
      injection Hres as <-. eauto 10.
    + now rewrite (parseCargoArgs_unregistered _ _ _ Hn Hset Hbin) in Hres.
  - now rewrite (parseCargoArgs_no_name _ _ Hname) in Hres.
Qed.

End ClosedForm.

Lemma valid_context_selects ctx name :
  valid_context ctx name → ∃ binary, selects_binary ctx name = Some binary.
Proof.
  intros (_ & _ & Hreg). unfold selects_binary.
  destruct (strict_eq (targetName ctx) "build"); [|eauto].
  destruct Hreg as [p ->]; eauto.
Qed.

Lemma strict_eq_true x lit : strict_eq x lit = true ↔ x = Some lit.
Proof.
  destruct x as [s|]; simpl; [|split; discriminate].
  rewrite String.eqb_eq. split; congruence.
Qed.

Lemma Forall_tokens_if {A} `{Truthy A} (P : string → Prop) (x : option A) f :
  (∀ a, x = Some a → Forall P (f a)) → Forall P (tokens_if x f).
Proof.
  intros Hf. unfold tokens_if. destruct x as [a|]; [|constructor].
  destruct (truthy a); [auto | constructor].
Qed.

(** ** Package selection *)

Lemma adjacent_cargo_args opts binary name :
  adjacent (selection_flag binary) name (cargo_args opts binary name).
Proof. unfold cargo_args. eexists _, _. reflexivity. Qed.

(** C1, as amended: for every options record and every context with a
    non-empty package name, a build of an application-kind package yields
    the flag [--bin] immediately followed by the package name, and a
    library-kind package or an action other than build yields the flag
    [-p] immediately followed by the package name. *)
Theorem selection_flag_then_name `{Chalk} opts ctx name :
  projectName ctx = Some name → truthy name = true →
  (targetName ctx = Some "build" → package_kind ctx name application →
   ∃ args, result (parseCargoArgs opts ctx) = inr args ∧
           adjacent "--bin" name args) ∧
  (targetName ctx ≠ Some "build" ∨ package_kind ctx name library →
   ∃ args, result (parseCargoArgs opts ctx) = inr args ∧
           adjacent "-p" name args).
Proof.
  intros Hname Hset. split.
  - intros Hbuild (project & Hreg & Hkind).
    assert (Hbin : selects_binary ctx name = Some true).
    { unfold selects_binary. rewrite Hbuild, Hreg, Hkind. reflexivity. }
    rewrite (parseCargoArgs_returns _ _ _ _ Hname Hset Hbin).
    eexists. split; [reflexivity|]. apply (adjacent_cargo_args opts true).
  - intros Hother.
    assert (Hbin : selects_binary ctx name = Some false).
    { unfold selects_binary.
      destruct (strict_eq (targetName ctx) "build") eqn:Hbuild; [|reflexivity].
      apply strict_eq_true in Hbuild.
      destruct Hother as [Hnot | (project & Hreg & Hkind)]; [contradiction|].
      rewrite Hreg, Hkind. reflexivity. }
    rewrite (parseCargoArgs_returns _ _ _ _ Hname Hset Hbin).
    eexists. split; [reflexivity|]. apply (adjacent_cargo_args opts false).
Qed.

Lemma selection_flag_then_name_witness :
  (∃ args, result (@parseCargoArgs plain_chalk no_options (sample_context "app" "build")) = inr args ∧
           adjacent "--bin" "app" args) ∧
  (∃ args, result (@parseCargoArgs plain_chalk no_options (sample_context "core" "build")) = inr args ∧
           adjacent "-p" "core" args).
Proof.
  split.
  - apply (@selection_flag_then_name plain_chalk no_options
             (sample_context "app" "build") "app" eq_refl eq_refl).
    + reflexivity.
    + exists {| projectType := Some application |}. split; reflexivity.
  - apply (@selection_flag_then_name plain_chalk no_options
             (sample_context "core" "build") "core" eq_refl eq_refl).
    right. exists {| projectType := Some library |}. split; reflexivity.
Defined.

(** C1, as stated, fails: a build of the application [app] with no option
    set returns [--bin] and then the package name; the name token is in
    the vector, right after the flag. *)
Lemma bin_without_name_counterexample :
  targetName (sample_context "app" "build") = Some "build" ∧
  package_kind (sample_context "app" "build") "app" application ∧
  result (@parseCargoArgs plain_chalk no_options (sample_context "app" "build"))
    = inr ["--bin"; "app"] ∧
  "app" ∈ ["--bin"; "app"].
Proof.
  split; [reflexivity|]. split.
  - exists {| projectType := Some application |}. split; reflexivity.
  - split; [reflexivity|]. set_solver.
Qed.

(** ** Toolchain tokens *)

Lemma plus_free_Some value v : plus_free value → value = Some v → not_plus v.
Proof. now intros Hfree ->. Qed.

Ltac literal_tokens :=
  repeat first [ apply Forall_nil | apply Forall_cons; split | discriminate
               | eassumption | eauto using plus_free_Some ].

(** The tokens after the leading toolchain token. *)
Lemma plus_free_tail opts ctx binary name :
  plus_free_values opts ctx → projectName ctx = Some name →
  Forall not_plus
    ([selection_flag binary; name] ++ feature_tokens opts ++
     compilation_tokens opts ++ outDir_tokens opts ++ display_tokens opts).
Proof.
  intros [Hn Hf Ht Htd Hod Hmf] Hname.
  unfold feature_tokens, compilation_tokens, outDir_tokens, display_tokens.
  rewrite !Forall_app. repeat split;
    [ destruct binary; literal_tokens
    | apply Forall_tokens_if; intros f Hf';
      destruct (String.eqb f "all"); literal_tokens
    | apply Forall_tokens_if; intros; literal_tokens .. ].
Qed.

(** C3, as amended: when neither [toolchain] nor [outDir] is set and none
    of the strings supplied by the caller (the package name and the values
    of [features], [target], [targetDir] and [messageFormat]) starts with a
    plus sign, no token of the returned vector starts with a plus sign. *)
Theorem no_toolchain_no_plus_token `{Chalk} opts ctx args :
  truthy (toolchain opts) = false → truthy (outDir opts) = false →
  plus_free (projectName ctx) → plus_free (features opts) →
  plus_free (target opts) → plus_free (targetDir opts) →
  plus_free (messageFormat opts) →
  result (parseCargoArgs opts ctx) = inr args →
  Forall not_plus args.
Proof.
  intros Htc Hout Hn Hf Ht Htd Hmf Hres.
  assert (Hfree : plus_free_values opts ctx).
  { split; try assumption. now destruct (outDir opts) as [[|c d]|]. }
  apply parseCargoArgs_inr in Hres as (name & binary & Hname & _ & _ & ->).
  unfold cargo_args, leading_tokens, toolchain_tokens.
  rewrite Hout, (tokens_if_false _ _ Htc).
  now apply plus_free_tail with ctx.
Qed.

Lemma no_toolchain_no_plus_token_witness :
  Forall not_plus
    ["--bin"; "app"; "--features"; "serde,cli"; "--release"; "--target-dir";
     "dist/target"; "--message-format"; "json"; "--locked"].
Proof.
  apply (@no_toolchain_no_plus_token plain_chalk release_options
           (sample_context "app" "build")).
  all: first [ reflexivity | exact I | discriminate ].
Defined.

(** C3, as stated, fails: with no toolchain and no [outDir], a target
    directory named [+build] is copied into the vector. *)
Lemma no_toolchain_plus_token_counterexample :
  toolchain plus_targetDir_options = None ∧
  outDir plus_targetDir_options = None ∧
  result (@parseCargoArgs plain_chalk plus_targetDir_options (sample_context "core" "test"))
    = inr ["-p"; "core"; "--target-dir"; "+build"] ∧
  "+build" ∈ ["-p"; "core"; "--target-dir"; "+build"] ∧
  plus_prefixed "+build".
Proof. repeat split; try reflexivity. set_solver. Qed.

(** ** The override by [outDir] *)

(** C4, as amended: with [outDir] set, [toolchain] set to [stable] and a
    valid context, the returned vector starts with [+nightly], exactly one
    warning is printed, and, when none of the strings supplied by the
    caller (the package name and the values of [features], [target],
    [targetDir], [outDir] and [messageFormat]) starts with a plus sign, no
    other token starts with a plus sign. *)
Theorem outDir_replaces_stable `{Chalk} opts ctx name :
  truthy (outDir opts) = true → toolchain opts = Some "stable" →
  valid_context ctx name →
  ∃ rest,
    parseCargoArgs opts ctx =
      {| result := inr ("+nightly" :: rest);
         output := [override_warning "stable"] |} ∧
    (plus_free_values opts ctx → Forall not_plus rest).
Proof.
  intros Hout Htc Hctx.
  destruct (valid_context_selects _ _ Hctx) as [binary Hbin].
  destruct Hctx as (Hname & Hset & _).
  rewrite (parseCargoArgs_returns _ _ _ _ Hname Hset Hbin).
  unfold cargo_args, cargo_warnings, leading_tokens. rewrite Hout, Htc.
  eexists. split; [reflexivity|].
  intros Hfree. now apply plus_free_tail with ctx.
Qed.

Lemma sample_context_valid name target :
  is_Some (projects sample_workspace !! name) → truthy name = true →
  valid_context (sample_context name target) name.
Proof. intros Hreg Hset. repeat split; auto. Qed.

Lemma outDir_replaces_stable_witness :
  ∃ rest,
    @parseCargoArgs plain_chalk stable_outDir_options (sample_context "app" "build") =
      {| result := inr ("+nightly" :: rest);
         output := [@override_warning plain_chalk "stable"] |} ∧
    Forall not_plus rest.
Proof.
  destruct (@outDir_replaces_stable plain_chalk stable_outDir_options
              (sample_context "app" "build") "app") as (rest & Hres & Hrest).
  - reflexivity.
  - reflexivity.
  - apply sample_context_valid; [eexists|]; reflexivity.
  - exists rest. split; [exact Hres|].
    apply Hrest. split; simpl; first [exact I | discriminate].
Defined.

(** C4, as stated, fails: the vector starts with [+nightly], and the value
    of [outDir] is a second token that starts with a plus sign. *)
Lemma outDir_other_plus_token_counterexample :
  toolchain stable_plus_outDir_options = Some "stable" ∧
  truthy (outDir stable_plus_outDir_options) = true ∧
  result (@parseCargoArgs plain_chalk stable_plus_outDir_options
            (sample_context "core" "build"))
    = inr ["+nightly"; "-p"; "core"; "-Z"; "unstable-options"; "--out-dir"; "+dist"] ∧
  "+dist" ∈ ["-p"; "core"; "-Z"; "unstable-options"; "--out-dir"; "+dist"] ∧
  plus_prefixed "+dist".
Proof. repeat split; try reflexivity. set_solver. Qed.

(** C5: with [outDir] set to [d], no toolchain set and a valid context,
    the returned vector starts with [+nightly] and contains the run
    [-Z], [unstable-options], [--out-dir], [d]. *)
Theorem outDir_inserts_nightly `{Chalk} opts ctx name d :
  outDir opts = Some d → truthy d = true →
  truthy (toolchain opts) = false →
  valid_context ctx name →
  ∃ args rest,
    result (parseCargoArgs opts ctx) = inr args ∧
    args = "+nightly" :: rest ∧
    contains_run ["-Z"; "unstable-options"; "--out-dir"; d] args.
Proof.
  intros Hd Htd Htc Hctx.
  destruct (valid_context_selects _ _ Hctx) as [binary Hbin].
  destruct Hctx as (Hname & Hset & _).
  rewrite (parseCargoArgs_returns _ _ _ _ Hname Hset Hbin).
  unfold cargo_args, leading_tokens, outDir_tokens.
  rewrite (tokens_if_true _ _ _ Hd Htd), Hd.
  change (truthy (Some d)) with (truthy d). rewrite Htd.
  eexists _, _. split; [reflexivity|]. split; [reflexivity|].
  exists (["+nightly"; selection_flag binary; name] ++ feature_tokens opts ++
          compilation_tokens opts), (display_tokens opts).
  cbn [app]. now rewrite <- !app_assoc.
Qed.

Lemma outDir_inserts_nightly_witness :
  ∃ args rest,
    result (@parseCargoArgs plain_chalk outDir_options (sample_context "core" "build"))
      = inr args ∧
    args = "+nightly" :: rest ∧
    contains_run ["-Z"; "unstable-options"; "--out-dir"; "dist"] args.
Proof.
  apply (@outDir_inserts_nightly plain_chalk outDir_options
           (sample_context "core" "build") "core" "dist").
  - reflexivity.
  - reflexivity.
  - reflexivity.
  - apply sample_context_valid; [eexists|]; reflexivity.
Defined.

(** ** The missing package name *)

(** C6: when the context's package name is absent or empty, the call
    throws the error [Expected project name to be non-null]; no vector is
    returned and nothing is printed. *)
Theorem missing_name_throws `{Chalk} opts ctx :
  projectName ctx = None ∨ projectName ctx = Some EmptyString →
  parseCargoArgs opts ctx =
    {| result := inl (Error "Expected project name to be non-null");
       output := [] |} ∧
  ∀ args, result (parseCargoArgs opts ctx) ≠ inr args.
Proof.
  intros Hname.
  assert (Hfalsy : truthy (projectName ctx) = false)
    by (destruct Hname as [-> | ->]; reflexivity).
  rewrite (parseCargoArgs_no_name _ _ Hfalsy). split; [reflexivity|].
  intros args. discriminate.
Qed.

Lemma missing_name_throws_witness :
  @parseCargoArgs plain_chalk stable_outDir_options unnamed_context =
    {| result := inl (Error "Expected project name to be non-null");
       output := [] |} ∧
  ∀ args, result (@parseCargoArgs plain_chalk stable_outDir_options unnamed_context)
          ≠ inr args.
Proof.
  apply (@missing_name_throws plain_chalk stable_outDir_options unnamed_context).
  left. reflexivity.
Defined.

(** ** Feature selection *)

Ltac other_tokens :=
  repeat first [ exact I | apply Forall_nil | apply Forall_cons; split
               | discriminate | congruence ].

Lemma all_features_only opts binary name :
  features opts = Some "all" →
  other_values_differ "--features" opts name →
  Forall (λ token, token ≠ "--features") (cargo_args opts binary name).
Proof.
  intros Hfeat [Hn Ht Htd Hod Hmf].
  unfold cargo_args, leading_tokens, toolchain_tokens, feature_tokens,
    compilation_tokens, outDir_tokens, display_tokens.
  rewrite Hfeat. rewrite !Forall_app. repeat split;
    [ | | other_tokens | apply Forall_tokens_if; intros; other_tokens .. ].
  - destruct (truthy (outDir opts)); [other_tokens|].
    apply Forall_tokens_if. intros t _.
    change ("+" +:+ t) with (String "+" t). other_tokens.
  - destruct binary; other_tokens.
Qed.

(** C7, as amended: with a valid context, [features] equal to [all] yields
    the token [--all-features], and a token [--features] is then in the
    vector only if it is the package name or the value of [target],
    [targetDir], [outDir] or [messageFormat]; [features] set to any other
    non-empty string [v] yields [--features] immediately followed by [v]. *)
Theorem features_flag `{Chalk} opts ctx name :
  valid_context ctx name →
  (features opts = Some "all" →
   ∃ args, result (parseCargoArgs opts ctx) = inr args ∧
           adjacent name "--all-features" args ∧
           (other_values_differ "--features" opts name → "--features" ∉ args)) ∧
  (∀ v, features opts = Some v → truthy v = true → v ≠ "all" →
   ∃ args, result (parseCargoArgs opts ctx) = inr args ∧
           adjacent "--features" v args).
Proof.
  intros Hctx.
  destruct (valid_context_selects _ _ Hctx) as [binary Hbin].
  destruct Hctx as (Hname & Hset & _).
  rewrite (parseCargoArgs_returns _ _ _ _ Hname Hset Hbin).
  split.
  - intros Hfeat. eexists. split; [reflexivity|]. split.
    + exists (leading_tokens opts ++ [selection_flag binary]),
        (compilation_tokens opts ++ outDir_tokens opts ++ display_tokens opts).
      unfold cargo_args, feature_tokens. rewrite Hfeat.
      cbn. now rewrite <- !app_assoc.
    + intros Hother Hin.
      pose proof (all_features_only opts binary name Hfeat Hother) as Hall.
      rewrite Forall_forall in Hall. now apply (Hall _ Hin).
  - intros v Hfeat Hv Hne. eexists. split; [reflexivity|].
    exists (leading_tokens opts ++ [selection_flag binary; name]),
      (compilation_tokens opts ++ outDir_tokens opts ++ display_tokens opts).
    unfold cargo_args, feature_tokens.
    rewrite (tokens_if_true _ _ _ Hfeat Hv).
    apply String.eqb_neq in Hne. rewrite Hne.
    cbn. now rewrite <- !app_assoc.
Qed.

Lemma features_flag_witness :
  (∃ args, result (@parseCargoArgs plain_chalk all_features_options
                     (sample_context "core" "test")) = inr args ∧
           adjacent "core" "--all-features" args ∧ "--features" ∉ args) ∧
  (∃ args, result (@parseCargoArgs plain_chalk two_features_options
                     (sample_context "core" "test")) = inr args ∧
           adjacent "--features" "x,y" args).
Proof.
  assert (Hctx : valid_context (sample_context "core" "test") "core")
    by (apply sample_context_valid; [eexists|]; reflexivity).
  split.
  - destruct (proj1 (@features_flag plain_chalk all_features_options _ _ Hctx) eq_refl)
      as (args & Hres & Hadj & Hnot).
    exists args. repeat split; [exact Hres | exact Hadj |].
    apply Hnot. split; discriminate.
  - apply (proj2 (@features_flag plain_chalk two_features_options _ _ Hctx) "x,y");
      [reflexivity | reflexivity | discriminate].
Defined.

(** C7, as stated, fails: with [features] equal to [all] the vector can
    still hold a token [--features], here the value of [targetDir]. *)
Lemma all_features_with_features_token_counterexample :
  features all_features_odd_targetDir = Some "all" ∧
  result (@parseCargoArgs plain_chalk all_features_odd_targetDir
            (sample_context "core" "test"))
    = inr ["-p"; "core"; "--all-features"; "--target-dir"; "--features"] ∧
  "--features" ∈ ["-p"; "core"; "--all-features"; "--target-dir"; "--features"].
Proof. repeat split; try reflexivity. set_solver. Qed.

(** ** The subcommand of an executor *)

Lemma split_nonempty sep s : split sep s ≠ [].
Proof.
  destruct s as [|c rest]; simpl; [discriminate|].
  destruct (Ascii.eqb c sep); [discriminate|].
  destruct (split sep rest); discriminate.
Qed.

Lemma last_cons_nonempty {A} (x : A) l : l ≠ [] → last (x :: l) = last l.
Proof. now destruct l. Qed.

(** The pieces of [prefix:label] end with the pieces of [label]. *)
Lemma split_after_separator sep prefix label :
  ∃ piece pieces,
    split sep (prefix +:+ String sep label) = piece :: pieces ∧
    pieces ≠ [] ∧ last pieces = last (split sep label).
Proof.
  induction prefix as [|c prefix (piece & pieces & IH & Hne & Hlast)]; simpl.
  - rewrite Ascii.eqb_refl. eauto using split_nonempty.
  - rewrite IH. destruct (Ascii.eqb c sep).
    + eexists _, _. split; [reflexivity|]. split; [discriminate|].
      now rewrite last_cons_nonempty.
    + eauto.
Qed.

Lemma at_last_split_qualified sep prefix label :
  at_last (split sep (prefix +:+ String sep label)) = at_last (split sep label).
Proof.
  destruct (split_after_separator sep prefix label)
    as (piece & pieces & -> & Hne & Hlast).
  unfold at_last. now rewrite last_cons_nonempty.
Qed.

(** C8: the action label [build] is mapped to [build], [test] to [test],
    [lint] to [clippy], [run] to [run] and [nextest] to [nextest run]; any
    other label yields the empty sequence. *)
Theorem subcommand_of_label executor :
  (action_label executor = Some "build" →
   getCargoCommandFromExecutor executor = ["build"]) ∧
  (action_label executor = Some "test" →
   getCargoCommandFromExecutor executor = ["test"]) ∧
  (action_label executor = Some "lint" →
   getCargoCommandFromExecutor executor = ["clippy"]) ∧
  (action_label executor = Some "run" →
   getCargoCommandFromExecutor executor = ["run"]) ∧
  (action_label executor = Some "nextest" →
   getCargoCommandFromExecutor executor = ["nextest"; "run"]) ∧
  (action_label executor ∉
     [Some "build"; Some "test"; Some "lint"; Some "run"; Some "nextest"] →
   getCargoCommandFromExecutor executor = []).
Proof.
  unfold action_label, getCargoCommandFromExecutor.
  repeat split; try (intros ->; reflexivity).
  intros Hother.
  repeat match goal with
  | |- context [strict_eq ?x ?lit] =>
      let E := fresh in
      destruct (strict_eq x lit) eqn:E;
      [apply strict_eq_true in E; rewrite E in Hother; set_solver|]
  end.
  reflexivity.
Qed.

Lemma subcommand_of_label_witness :
  getCargoCommandFromExecutor "build" = ["build"] ∧
  getCargoCommandFromExecutor "test" = ["test"] ∧
  getCargoCommandFromExecutor "lint" = ["clippy"] ∧
  getCargoCommandFromExecutor "run" = ["run"] ∧
  getCargoCommandFromExecutor "nextest" = ["nextest"; "run"] ∧
  getCargoCommandFromExecutor "deploy" = [].
Proof.
  pose proof (subcommand_of_label "build") as (Hbuild & _).
  pose proof (subcommand_of_label "test") as (_ & Htest & _).
  pose proof (subcommand_of_label "lint") as (_ & _ & Hlint & _).
  pose proof (subcommand_of_label "run") as (_ & _ & _ & Hrun & _).
  pose proof (subcommand_of_label "nextest") as (_ & _ & _ & _ & Hnextest & _).
  pose proof (subcommand_of_label "deploy") as (_ & _ & _ & _ & _ & Hother).
  split; [exact (Hbuild eq_refl)|].
  split; [exact (Htest eq_refl)|].
  split; [exact (Hlint eq_refl)|].
  split; [exact (Hrun eq_refl)|].
  split; [exact (Hnextest eq_refl)|].
  apply Hother. unfold action_label. simpl.
  rewrite !not_elem_of_cons. repeat split; try discriminate. apply not_elem_of_nil.
Defined.

Lemma split_without_separator sep s : occurs sep s = false → split sep s = [s].
Proof.
  induction s as [|c rest IH]; simpl; [reflexivity|].
  intros [Hc Hrest]%orb_false_iff. now rewrite Hc, (IH Hrest).
Qed.

(** C9: the subcommand depends only on what follows the last colon of the
    executor: [prefix:label] resolves as [label] does, for every prefix and
    label, and the action label of [prefix:label] is [label] itself when
    [label] holds no colon. *)
Theorem qualified_executor_resolves_as_label prefix label :
  getCargoCommandFromExecutor (prefix +:+ ":" +:+ label) =
    getCargoCommandFromExecutor label ∧
  (occurs ":" label = false →
   action_label (prefix +:+ ":" +:+ label) = Some label).
Proof.
  change (":" +:+ label) with (String ":" label). split.
  - unfold getCargoCommandFromExecutor.
    now rewrite at_last_split_qualified.
  - intros Hlabel. unfold action_label.
    now rewrite at_last_split_qualified, split_without_separator.
Qed.

Lemma qualified_executor_resolves_as_label_witness :
  getCargoCommandFromExecutor "@scope/plugin:lint" = getCargoCommandFromExecutor "lint" ∧
  action_label "@scope/plugin:lint" = Some "lint".
Proof.
  destruct (qualified_executor_resolves_as_label "@scope/plugin" "lint") as [Hsame Hlabel].
  split; [exact Hsame | apply Hlabel; reflexivity].
Defined.

(** ** Running cargo *)

Lemma settled_stays (events : list ChildEvent) p :
  p ≠ Pending → foldl (λ p ev, runCargo_listener ev p) p events = p.
Proof.
  revert p. induction events as [|ev events IH]; intros p Hp; [reflexivity|].
  simpl. rewrite IH.
  - destruct p; [contradiction| |]; destruct ev as [err|[n|] sig]; simpl;
      try reflexivity; now destruct (truthy n).
  - destruct p; [contradiction| |]; destruct ev as [err|[n|] sig]; simpl;
      try discriminate; now destruct (truthy n).
Qed.

(** The first event settles the promise. *)
Lemma runCargo_first_event `{Chalk} `{ChildProcess} args ctx ev events :
  spawn (spawned (runCargo args ctx)) = ev :: events →
  promise (runCargo args ctx) = runCargo_listener ev Pending.
Proof.
  unfold runCargo. cbn [spawned promise]. intros ->. simpl foldl.
  apply settled_stays.
  destruct ev as [err|[n|] sig]; simpl; try discriminate.
  now destruct (truthy n).
Qed.

(** C2, where the code departs from it: when the child is ended by a
    signal, [close] carries the code [null], the listener takes the branch
    of the zero exit code, and the promise is fulfilled. *)
Theorem runCargo_fulfilled_on_signal `{Chalk} `{ChildProcess} args ctx signal events :
  spawn (spawned (runCargo args ctx)) = on_close None (Some signal) :: events →
  promise (runCargo args ctx) = Fulfilled.
Proof. intros Hev. now rewrite (runCargo_first_event _ _ _ _ Hev). Qed.

Lemma runCargo_fulfilled_on_signal_witness :
  promise (@runCargo plain_chalk (killed_by "SIGINT")
             ["build"; "-p"; "core"] (sample_context "core" "build"))
    = Fulfilled.
Proof.
  apply (@runCargo_fulfilled_on_signal plain_chalk (killed_by "SIGINT")
           _ _ "SIGINT" []).
  reflexivity.
Defined.

(** X2: an exit settles the promise by the code: zero fulfils it, any
    other code rejects it with an error that names the code. *)
Theorem runCargo_exit_code `{Chalk} args ctx code :
  promise (@runCargo _ (exits_with code) args ctx) =
    if (code =? 0)%Z then Fulfilled
    else Rejected (Error ("Cargo failed with exit code " +:+ pretty code)).
Proof.
  unfold runCargo, spawn, exits_with. cbn [promise foldl runCargo_listener].
  unfold truthy, Z_truthy. now destruct (code =? 0)%Z.
Qed.

(** X3: a failed spawn rejects the promise with the error of the spawn
    itself, whatever is emitted afterwards. *)
Theorem runCargo_spawn_failure `{Chalk} `{ChildProcess} args ctx err events :
  spawn (spawned (runCargo args ctx)) = on_error err :: events →
  promise (runCargo args ctx) = Rejected err.
Proof. intros Hev. now rewrite (runCargo_first_event _ _ _ _ Hev). Qed.

Lemma runCargo_spawn_failure_witness :
  promise (@runCargo plain_chalk (fails_to_spawn (SystemError "ENOENT"))
             ["build"; "-p"; "core"] (sample_context "core" "build"))
    = Rejected (SystemError "ENOENT").
Proof.
  apply (@runCargo_spawn_failure plain_chalk (fails_to_spawn (SystemError "ENOENT"))
           _ _ _ [on_close (Some (-2)%Z) None]).
  reflexivity.
Defined.

(** ** The workspace manifest *)

Section Manifest.
Import Generator.

(** C10: when the parsed manifest has a [workspace] entry without
    [members], nothing is appended and nothing is thrown: the document is
    serialized as it was parsed and written back to the manifest path. *)
Theorem absent_members_written_back `{Toml} `{Constants} host opts doc ws text :
  parseToml (host !! CARGO_TOML) = inr doc →
  property doc "workspace" = Some ws →
  property ws "members" = None →
  stringifyToml doc = inr text →
  updateWorkspaceMembers host opts = inr (<[CARGO_TOML := text]> host).
Proof.
  intros Hparse Hws Hmembers Htext. unfold updateWorkspaceMembers.
  rewrite Hparse. cbn [mbind result_bind]. rewrite Hws.
  cbn [mbind result_bind]. rewrite Hmembers.
  cbn [mbind result_bind]. now rewrite Htext.
Qed.

Lemma absent_members_written_back_witness :
  @updateWorkspaceMembers bare_toml cargo_toml_path
    {[ "Cargo.toml" := "[workspace]" ]} new_library
  = inr (<["Cargo.toml" := "[workspace] resolver = 2"]> {[ "Cargo.toml" := "[workspace]" ]}).
Proof.
  apply (@absent_members_written_back bare_toml cargo_toml_path
           {[ "Cargo.toml" := "[workspace]" ]} new_library bare_manifest
           (TTable [("resolver", TString "2")])); reflexivity.
Defined.

Lemma assoc_assoc_set key v entries : assoc key (assoc_set key v entries) = Some v.
Proof.
  induction entries as [|[k w] rest IH]; simpl.
  - now rewrite String.eqb_refl.
  - destruct (String.eqb k key) eqn:Hk; simpl; now rewrite Hk.
Qed.

(** X4: when [workspace.members] is an array, the project root is appended
    to it as its last element, and the document with that array is what is
    serialized and written back. *)
Theorem members_appended `{Toml} `{Constants} host opts entries ws items :
  parseToml (host !! CARGO_TOML) = inr (TTable entries) →
  assoc "workspace" entries = Some (TTable ws) →
  assoc "members" ws = Some (TArray items) →
  ∃ doc,
    updateWorkspaceMembers host opts =
      (text ← stringifyToml doc; inr (<[CARGO_TOML := text]> host)) ∧
    (property doc "workspace" ≫= λ w, property w "members") =
      Some (TArray (items ++ [TString (projectRoot opts)])).
Proof.
  intros Hparse Hws Hmembers.
  eexists. split.
  - unfold updateWorkspaceMembers. rewrite Hparse.
    cbn [mbind result_bind property]. rewrite Hws.
    cbn [mbind result_bind property]. rewrite Hmembers.
    cbn [truthy TomlValue_truthy mbind result_bind with_property].
    reflexivity.
  - cbn [property]. rewrite assoc_assoc_set. cbn. now rewrite assoc_assoc_set.
Qed.

Lemma members_appended_witness :
  ∃ doc,
    @updateWorkspaceMembers one_member_toml cargo_toml_path
      {[ "Cargo.toml" := "[workspace]" ]} new_library =
      (text ← @stringifyToml one_member_toml doc;
       inr (<["Cargo.toml" := text]> {[ "Cargo.toml" := "[workspace]" ]})) ∧
    (property doc "workspace" ≫= λ w, property w "members") =
      Some (TArray [TString "apps/app"; TString "libs/core"]).
Proof.
  apply (@members_appended one_member_toml cargo_toml_path
           {[ "Cargo.toml" := "[workspace]" ]} new_library
           [("workspace", TTable [("members", TArray [TString "apps/app"])])]
           [("members", TArray [TString "apps/app"])] [TString "apps/app"]);
    reflexivity.
Defined.

End Manifest.

(** * Further properties *)

(** ** parseCargoArgs on every input *)

Section EveryInput.
Context `{Chalk}.

Lemma parseCargoArgs_outcome_eq opts ctx :
  parseCargoArgs opts ctx = parseCargoArgs_outcome opts ctx.
Proof.
  unfold parseCargoArgs_outcome.
  destruct (projectName ctx) as [name|] eqn:Hname.
  - destruct (truthy name) eqn:Hset.
    + destruct (selects_binary ctx name) as [binary|] eqn:Hbin.
      * now apply parseCargoArgs_returns.
      * now apply parseCargoArgs_unregistered with name.
    + apply parseCargoArgs_no_name. now rewrite Hname.
  - apply parseCargoArgs_no_name. now rewrite Hname.
Qed.

Lemma selects_binary_true ctx name :
  selects_binary ctx name = Some true ↔
  targetName ctx = Some "build" ∧ package_kind ctx name application.
Proof.
  unfold selects_binary, package_kind. split.
  - destruct (strict_eq (targetName ctx) "build") eqn:Hbuild; [|discriminate].
    apply strict_eq_true in Hbuild.
    destruct (projects (workspace ctx) !! name) as [project|]; [|discriminate].
    intros [= Hkind%bool_decide_eq_true]. eauto.
  - intros (-> & project & -> & ->). reflexivity.
Qed.

(** X5: on a valid context the call returns exactly the toolchain token,
    the selection flag, the package name, then the tokens of the features,
    compilation, out-dir and display options, in this order; the flag is
    [--bin] exactly for a build of an application-kind package. *)
Theorem exact_token_sequence opts ctx name :
  valid_context ctx name →
  ∃ binary,
    (binary = true ↔
     targetName ctx = Some "build" ∧ package_kind ctx name application) ∧
    parseCargoArgs opts ctx =
      {| result :=
           inr (leading_tokens opts ++ [selection_flag binary; name] ++
                feature_tokens opts ++ compilation_tokens opts ++
                outDir_tokens opts ++ display_tokens opts);
         output := cargo_warnings opts |}.
Proof.
  intros Hctx.
  destruct (valid_context_selects _ _ Hctx) as [binary Hbin].
  destruct Hctx as (Hname & Hset & _).
  exists binary. split.
  - rewrite <- selects_binary_true, Hbin. split; congruence.
  - now apply parseCargoArgs_returns.
Qed.

(** X6: a call prints at most one line.  It prints one only when [outDir]
    is set together with a toolchain other than [nightly]; the call then
    returns a vector that starts with [+nightly], and the line names the
    toolchain that was asked for. *)
Theorem at_most_one_warning opts ctx :
  output (parseCargoArgs opts ctx) = [] ∨
  ∃ t rest,
    toolchain opts = Some t ∧ t ≠ "nightly" ∧ truthy (outDir opts) = true ∧
    parseCargoArgs opts ctx =
      {| result := inr ("+nightly" :: rest); output := [override_warning t] |}.
Proof.
  rewrite parseCargoArgs_outcome_eq. unfold parseCargoArgs_outcome.
  destruct (projectName ctx) as [name|]; [|now left].
  destruct (truthy name); [|now left].
  destruct (selects_binary ctx name) as [binary|]; [|now left].
  unfold cargo_warnings, cargo_args, leading_tokens. cbn [output].
  destruct (truthy (outDir opts)) eqn:Hout; [|now left].
  unfold tokens_if. destruct (toolchain opts) as [t|]; [|now left].
  destruct (truthy t); [|now left].
  destruct (String.eqb_spec t "nightly") as [->|Hne]; [now left|].
  right. eexists t, _. split; [reflexivity|]. split; [assumption|].
  split; reflexivity.
Qed.

Lemma truthy_drop_falsy {A} `{Truthy A} (x : option A) :
  truthy (drop_falsy x) = truthy x.
Proof. unfold drop_falsy. now destruct (truthy x) eqn:Hx. Qed.

Lemma tokens_if_drop_falsy {A} `{Truthy A} (x : option A) f :
  tokens_if (drop_falsy x) f = tokens_if x f.
Proof.
  unfold drop_falsy. destruct (truthy x) eqn:Hx; [reflexivity|].
  now rewrite (tokens_if_false _ _ Hx).
Qed.

(** X7: an option that is present but falsy (an empty string, [false])
    counts as absent: the call ends the same way, with the same vector and
    the same printed lines, when every such option is removed. *)
Theorem falsy_options_are_absent opts ctx :
  parseCargoArgs (without_falsy opts) ctx = parseCargoArgs opts ctx.
Proof.
  rewrite !parseCargoArgs_outcome_eq. unfold parseCargoArgs_outcome.
  assert (Hargs : ∀ binary name,
    cargo_args (without_falsy opts) binary name = cargo_args opts binary name).
  { intros binary name.
    unfold cargo_args, leading_tokens, toolchain_tokens, feature_tokens,
      compilation_tokens, outDir_tokens, display_tokens.
    cbn [without_falsy toolchain features noDefaultFeatures target release
         targetDir outDir verbose veryVerbose quiet messageFormat locked
         frozen offline].
    now rewrite !tokens_if_drop_falsy, truthy_drop_falsy. }
  assert (Hwarn : cargo_warnings (without_falsy opts) = cargo_warnings opts).
  { unfold cargo_warnings. cbn [without_falsy toolchain outDir].
    now rewrite tokens_if_drop_falsy, truthy_drop_falsy. }
  destruct (projectName ctx) as [name|]; [|reflexivity].
  destruct (truthy name); [|reflexivity].
  destruct (selects_binary ctx name); [|reflexivity].
  now rewrite Hargs, Hwarn.
Qed.

(** X8: with [outDir] set the returned vector does not depend on the
    toolchain that was asked for. *)
Theorem outDir_overrides_every_toolchain opts ctx t1 t2 :
  truthy (outDir opts) = true →
  result (parseCargoArgs (with_toolchain t1 opts) ctx) =
  result (parseCargoArgs (with_toolchain t2 opts) ctx).
Proof.
  intros Hout. rewrite !parseCargoArgs_outcome_eq. unfold parseCargoArgs_outcome.
  destruct (projectName ctx) as [name|]; [|reflexivity].
  destruct (truthy name); [|reflexivity].
  destruct (selects_binary ctx name); [|reflexivity].
  cbn [result]. unfold cargo_args, leading_tokens.
  cbn [with_toolchain outDir]. now rewrite Hout.
Qed.


(** X10: the root of the workspace is never read, and for a target other
    than [build] the workspace is not read either: the call ends the same
    way in any other workspace. *)
Theorem workspace_read_only_for_build opts ctx :
  (∀ r, parseCargoArgs opts (relocated r (workspace ctx) ctx) =
        parseCargoArgs opts ctx) ∧
  (targetName ctx ≠ Some "build" →
   ∀ r w, parseCargoArgs opts (relocated r w ctx) = parseCargoArgs opts ctx).
Proof.
  split.
  - intros r. now rewrite !parseCargoArgs_outcome_eq.
  - intros Hother r w. rewrite !parseCargoArgs_outcome_eq.
    unfold parseCargoArgs_outcome, selects_binary. cbn [relocated projectName targetName].
    destruct (strict_eq (targetName ctx) "build") eqn:Hbuild; [|reflexivity].
    now apply strict_eq_true in Hbuild.
Qed.

End EveryInput.

Lemma exact_token_sequence_witness :
  @parseCargoArgs plain_chalk release_options (sample_context "app" "build") =
    {| result :=
         inr ["--bin"; "app"; "--features"; "serde,cli"; "--release";
              "--target-dir"; "dist/target"; "--message-format"; "json";
              "--locked"];
       output := [] |}.
Proof.
  destruct (@exact_token_sequence plain_chalk release_options
              (sample_context "app" "build") "app")
    as (binary & Hbinary & ->).
  - apply sample_context_valid; [eexists|]; reflexivity.
  - destruct binary; [reflexivity|].
    assert (Hfalse : false = true); [|discriminate Hfalse].
    apply Hbinary. split; [reflexivity|].
    exists {| projectType := Some application |}. split; reflexivity.
Defined.

Lemma outDir_overrides_every_toolchain_witness :
  result (@parseCargoArgs plain_chalk (with_toolchain (Some "beta") outDir_options)
            (sample_context "core" "build")) =
  result (@parseCargoArgs plain_chalk (with_toolchain None outDir_options)
            (sample_context "core" "build")).
Proof.
  apply (@outDir_overrides_every_toolchain plain_chalk outDir_options
           (sample_context "core" "build") (Some "beta") None).
  reflexivity.
Defined.


Lemma workspace_read_only_for_build_witness :
  @parseCargoArgs plain_chalk release_options
    (relocated "/elsewhere" {| projects := ∅ |} (sample_context "core" "test")) =
  @parseCargoArgs plain_chalk release_options (sample_context "core" "test").
Proof.
  apply (@workspace_read_only_for_build plain_chalk release_options
           (sample_context "core" "test")).
  discriminate.
Defined.

(** ** The promise of runCargo *)

Section Settling.
Context `{Chalk} `{ChildProcess}.



End Settling.

(** ** Executors without an action label *)

(** X12: an executor that ends in a colon has the empty action label and
    resolves to no subcommand, whatever precedes the colon; so does the
    empty executor. *)
Theorem trailing_colon_resolves_to_nothing prefix :
  getCargoCommandFromExecutor (prefix +:+ ":") = [] ∧
  action_label (prefix +:+ ":") = Some EmptyString ∧
  getCargoCommandFromExecutor EmptyString = [].
Proof.
  split; [|split; [|reflexivity]].
  - unfold getCargoCommandFromExecutor.
    now rewrite (at_last_split_qualified ":" prefix EmptyString).
  - unfold action_label.
    now rewrite (at_last_split_qualified ":" prefix EmptyString).
Qed.

(** ** What the watch wrapper keeps *)

Lemma split_piece_then_separator sep piece s :
  occurs sep piece = false →
  split sep (piece +:+ String sep s) = piece :: split sep s.
Proof.
  induction piece as [|c piece IH]; simpl.
  - intros _. now rewrite Ascii.eqb_refl.
  - intros [Hc Hpiece]%orb_false_iff. now rewrite Hc, (IH Hpiece).
Qed.

(** Splitting a joined line at the separator gives the pieces back. *)
Lemma split_join sep x xs :
  Forall (λ piece, occurs sep piece = false) (x :: xs) →
  split sep (join (String sep EmptyString) (x :: xs)) = x :: xs.
Proof.
  revert x. induction xs as [|y xs IH]; intros x Hfree.
  - apply split_without_separator. now inversion Hfree.
  - inversion Hfree as [|? ? Hx Hrest]; subst.
    change (join (String sep EmptyString) (x :: y :: xs))
      with (x +:+ String sep (join (String sep EmptyString) (y :: xs))).
    now rewrite (split_piece_then_separator _ _ _ Hx), (IH y Hrest).
Qed.

(** X1: the wrapper returns [watch], [-cqs] and one quoted line; when no
    token of the command holds a space, splitting the line at the spaces
    gives back [cargo] followed by the tokens of the command. *)
Theorem watch_line_keeps_tokens command :
  Forall (λ token, occurs " " token = false) command →
  ∃ line,
    wrapWithCargoWatch command = ["watch"; "-cqs"; dquote +:+ line +:+ dquote] ∧
    split " " line = "cargo" :: command.
Proof.
  intros Hfree. exists (join " " ("cargo" :: command)).
  split; [reflexivity|].
  apply split_join. now constructor.
Qed.

Lemma watch_line_keeps_tokens_witness :
  ∃ line,
    wrapWithCargoWatch ["test"; "-p"; "core"] =
      ["watch"; "-cqs"; dquote +:+ line +:+ dquote] ∧
    split " " line = ["cargo"; "test"; "-p"; "core"].
Proof.
  apply (watch_line_keeps_tokens ["test"; "-p"; "core"]).
  repeat constructor.
Defined.

Lemma append_assoc (a b c : string) : (a +:+ b) +:+ c = a +:+ b +:+ c.
Proof.
  induction a as [|ch a IH]; [reflexivity|].
  change (String ch ((a +:+ b) +:+ c) = String ch (a +:+ b +:+ c)).
  now rewrite IH.
Qed.

(** X13: a space inside a token is not told apart from the space between
    two tokens: a command and the command with its first two tokens merged
    into one are wrapped to the same line. *)
Theorem watch_line_merges_tokens x y rest :
  wrapWithCargoWatch ((x +:+ " " +:+ y) :: rest) =
  wrapWithCargoWatch (x :: y :: rest).
Proof.
  unfold wrapWithCargoWatch. do 3 f_equal. f_equal.
  change (join " " ("cargo" :: x :: y :: rest))
    with ("cargo" +:+ " " +:+ join " " (x :: y :: rest)).
  change (join " " ("cargo" :: (x +:+ " " +:+ y) :: rest))
    with ("cargo" +:+ " " +:+ join " " ((x +:+ " " +:+ y) :: rest)).
  do 2 f_equal.
  destruct rest as [|z rest]; simpl.
  - reflexivity.
  - now rewrite !append_assoc.
Qed.

(** ** The manifest: what is written, what is kept *)

Section ManifestUpdates.
Import Generator Members.
Context `{Toml} `{Constants}.

Lemma assoc_assoc_set_ne key key' v entries :
  key' ≠ key → assoc key' (assoc_set key v entries) = assoc key' entries.
Proof.
  intros Hne. induction entries as [|[k w] rest IH]; simpl.
  - destruct (String.eqb_spec key key'); [congruence | reflexivity].
  - destruct (String.eqb_spec k key) as [->|Hk]; simpl.
    + destruct (String.eqb_spec key key'); [congruence | reflexivity].
    + now rewrite IH.
Qed.

Lemma keys_assoc_set key v entries :
  is_Some (assoc key entries) → (assoc_set key v entries).*1 = entries.*1.
Proof.
  induction entries as [|[k w] rest IH]; simpl.
  - intros [? [=]].
  - destruct (String.eqb k key); [reflexivity|].
    intros Hrest. cbn [fmap list_fmap fst]. f_equal. now apply IH.
Qed.

(** A call that finds the array writes the document with the member. *)
Lemma update_with_member host opts doc items :
  parseToml (host !! CARGO_TOML) = inr doc →
  members_of doc = Some items →
  updateWorkspaceMembers host opts =
    (text ← stringifyToml (with_member (projectRoot opts) doc);
     inr (<[CARGO_TOML := text]> host)).
Proof.
  intros Hparse Hmembers. unfold updateWorkspaceMembers, members_of, with_member in *.
  rewrite Hparse. cbn [mbind result_bind].
  destruct (property doc "workspace") as [ws|]; [|discriminate].
  cbn [mbind option_bind result_bind] in *.
  destruct (property ws "members") as [[| | | | |members|]|]; try discriminate.
  reflexivity.
Qed.

Lemma members_of_with_member root doc items :
  members_of doc = Some items →
  members_of (with_member root doc) = Some (items ++ [TString root]).
Proof.
  unfold members_of, with_member.
  destruct doc as [| | | | | |entries]; try discriminate. cbn [property].
  destruct (assoc "workspace" entries) as [ws|]; [|discriminate].
  cbn [mbind option_bind].
  destruct ws as [| | | | | |wentries]; try discriminate. cbn [property].
  destruct (assoc "members" wentries) as [[| | | | |members|]|]; try discriminate.
  intros [= ->]. cbn [with_property property].
  rewrite assoc_assoc_set. cbn [mbind option_bind property].
  now rewrite assoc_assoc_set.
Qed.

Lemma update_inr host opts host' :
  updateWorkspaceMembers host opts = inr host' →
  ∃ text, host' = <[CARGO_TOML := text]> host.
Proof.
  unfold updateWorkspaceMembers.
  destruct (parseToml (host !! CARGO_TOML)) as [e|doc]; [discriminate|].
  cbn [mbind result_bind].
  destruct (property doc "workspace") as [ws|]; [|discriminate].
  cbn [mbind result_bind].
  assert (Hwrite : ∀ d, (stringifyToml d ≫= λ updated, inr (<[CARGO_TOML := updated]> host))
                        = inr host' → ∃ text, host' = <[CARGO_TOML := text]> host).
  { intros d. destruct (stringifyToml d) as [e|text]; [discriminate|].
    intros [= <-]. eauto. }
  destruct (property ws "members") as [m|]; [|apply Hwrite].
  destruct (truthy m); [|apply Hwrite].
  destruct m; try discriminate. apply Hwrite.
Qed.

(** X14: a call that returns has written the manifest and nothing else:
    every other path of the tree reads as before. *)
Theorem only_the_manifest_is_written host opts host' :
  updateWorkspaceMembers host opts = inr host' →
  is_Some (host' !! CARGO_TOML) ∧
  ∀ path, path ≠ CARGO_TOML → host' !! path = host !! path.
Proof.
  intros [text ->]%update_inr. split.
  - rewrite lookup_insert_eq. eauto.
  - intros path Hpath. now rewrite lookup_insert_ne.
Qed.

(** X15: appending the member keeps the rest of the document: the tables
    of the document and of [workspace] keep their keys in their order,
    and every entry other than [workspace.members] keeps its value. *)
Theorem member_appended_rest_kept host opts entries ws items :
  parseToml (host !! CARGO_TOML) = inr (TTable entries) →
  assoc "workspace" entries = Some (TTable ws) →
  assoc "members" ws = Some (TArray items) →
  ∃ entries' ws',
    updateWorkspaceMembers host opts =
      (text ← stringifyToml (TTable entries');
       inr (<[CARGO_TOML := text]> host)) ∧
    assoc "workspace" entries' = Some (TTable ws') ∧
    entries'.*1 = entries.*1 ∧ ws'.*1 = ws.*1 ∧
    (∀ key, key ≠ "workspace" → assoc key entries' = assoc key entries) ∧
    (∀ key, key ≠ "members" → assoc key ws' = assoc key ws).
Proof.
  intros Hparse Hws Hmembers.
  exists (assoc_set "workspace"
            (TTable (assoc_set "members"
                       (TArray (items ++ [TString (projectRoot opts)])) ws))
            entries),
         (assoc_set "members" (TArray (items ++ [TString (projectRoot opts)])) ws).
  split; [|split; [|split; [|split; [|split]]]].
  - rewrite (update_with_member host opts (TTable entries) items Hparse).
    + unfold with_member. cbn [property]. rewrite Hws.
      cbn [property]. now rewrite Hmembers.
    + unfold members_of. cbn [property]. rewrite Hws.
      cbn [mbind option_bind property]. now rewrite Hmembers.
  - apply assoc_assoc_set.
  - apply keys_assoc_set. rewrite Hws. eauto.
  - apply keys_assoc_set. rewrite Hmembers. eauto.
  - intros key Hkey. now apply assoc_assoc_set_ne.
  - intros key Hkey. now apply assoc_assoc_set_ne.
Qed.

(** X16: an entry [members] that is present but falsy (an empty string,
    [false], zero) is left alone, as an absent one is: the document is
    serialized as it was parsed. *)
Theorem falsy_members_left_alone host opts doc ws members :
  parseToml (host !! CARGO_TOML) = inr doc →
  property doc "workspace" = Some ws →
  property ws "members" = Some members →
  truthy members = false →
  updateWorkspaceMembers host opts =
    (text ← stringifyToml doc; inr (<[CARGO_TOML := text]> host)).
Proof.
  intros Hparse Hws Hmembers Hfalsy. unfold updateWorkspaceMembers.
  rewrite Hparse. cbn [mbind result_bind]. rewrite Hws.
  cbn [mbind result_bind]. now rewrite Hmembers, Hfalsy.
Qed.


(** X18: two calls in a row, with a library that reads back the document
    it wrote after the first call, leave a manifest whose members are the
    old ones followed by the first and then the second project root. *)
Theorem two_members_in_call_order host first second doc items text1 text2 :
  parseToml (host !! CARGO_TOML) = inr doc →
  members_of doc = Some items →
  stringifyToml (with_member (projectRoot first) doc) = inr text1 →
  parseToml (Some text1) = inr (with_member (projectRoot first) doc) →
  stringifyToml
    (with_member (projectRoot second) (with_member (projectRoot first) doc))
    = inr text2 →
  (updateWorkspaceMembers host first ≫= λ host', updateWorkspaceMembers host' second)
    = inr (<[CARGO_TOML := text2]> host) ∧
  members_of
    (with_member (projectRoot second) (with_member (projectRoot first) doc))
    = Some (items ++ [TString (projectRoot first); TString (projectRoot second)]).
Proof.
  intros Hparse Hitems Htext1 Hback Htext2. split.
  - rewrite (update_with_member host first doc items Hparse Hitems), Htext1.
    cbn [mbind result_bind].
    rewrite (update_with_member _ second (with_member (projectRoot first) doc)
               (items ++ [TString (projectRoot first)])).
    + rewrite Htext2. cbn [mbind result_bind]. now rewrite insert_insert_eq.
    + now rewrite lookup_insert_eq.
    + now apply members_of_with_member.
  - rewrite (members_of_with_member _ _ (items ++ [TString (projectRoot first)])).
    + now rewrite <- app_assoc.
    + now apply members_of_with_member.
Qed.

End ManifestUpdates.

Section ManifestExamples.
Import Generator Members.

Lemma only_the_manifest_is_written_witness :
  is_Some (<["Cargo.toml" := "apps/app,libs/core"]> sample_tree !! "Cargo.toml") ∧
  ∀ path, path ≠ "Cargo.toml" →
    <["Cargo.toml" := "apps/app,libs/core"]> sample_tree !! path = sample_tree !! path.
Proof.
  apply (@only_the_manifest_is_written line_toml cargo_toml_path
           sample_tree new_library).
  reflexivity.
Defined.

Lemma member_appended_rest_kept_witness :
  ∃ entries' ws',
    @updateWorkspaceMembers (constant_toml package_manifest "written") cargo_toml_path
      sample_tree new_library =
      (text ← @stringifyToml (constant_toml package_manifest "written") (TTable entries');
       inr (<["Cargo.toml" := text]> sample_tree)) ∧
    assoc "workspace" entries' = Some (TTable ws') ∧
    entries'.*1 = ["package"; "workspace"] ∧
    ws'.*1 = ["resolver"; "members"; "exclude"] ∧
    (∀ key, key ≠ "workspace" →
       assoc key entries' =
       assoc key [("package", TTable [("name", TString "root")]);
                  ("workspace", TTable [("resolver", TString "2");
                                        ("members", TArray [TString "apps/app"]);
                                        ("exclude", TArray [])])]) ∧
    (∀ key, key ≠ "members" →
       assoc key ws' =
       assoc key [("resolver", TString "2");
                  ("members", TArray [TString "apps/app"]);
                  ("exclude", TArray [])]).
Proof.
  apply (@member_appended_rest_kept (constant_toml package_manifest "written")
           cargo_toml_path sample_tree new_library
           [("package", TTable [("name", TString "root")]);
            ("workspace", TTable [("resolver", TString "2");
                                  ("members", TArray [TString "apps/app"]);
                                  ("exclude", TArray [])])]
           [("resolver", TString "2");
            ("members", TArray [TString "apps/app"]);
            ("exclude", TArray [])]
           [TString "apps/app"]); reflexivity.
Defined.

Lemma falsy_members_left_alone_witness :
  @updateWorkspaceMembers (constant_toml empty_string_members "written")
    cargo_toml_path sample_tree new_library =
    (text ← @stringifyToml (constant_toml empty_string_members "written")
              empty_string_members;
     inr (<["Cargo.toml" := text]> sample_tree)).
Proof.
  apply (@falsy_members_left_alone (constant_toml empty_string_members "written")
           cargo_toml_path sample_tree new_library empty_string_members
           (TTable [("members", TString EmptyString)]) (TString EmptyString));
    reflexivity.
Defined.


Lemma two_members_in_call_order_witness :
  (@updateWorkspaceMembers line_toml cargo_toml_path sample_tree new_library
     ≫= λ host', @updateWorkspaceMembers line_toml cargo_toml_path host' second_library)
    = inr (<["Cargo.toml" := "apps/app,libs/core,libs/util"]> sample_tree) ∧
  members_of
    (with_member "libs/util"
       (with_member "libs/core"
          (TTable [("workspace", TTable [("members", TArray [TString "apps/app"])])])))
    = Some [TString "apps/app"; TString "libs/core"; TString "libs/util"].
Proof.
  apply (@two_members_in_call_order line_toml cargo_toml_path sample_tree
           new_library second_library
           (TTable [("workspace", TTable [("members", TArray [TString "apps/app"])])])
           [TString "apps/app"] "apps/app,libs/core" "apps/app,libs/core,libs/util");
    reflexivity.
Defined.

End ManifestExamples.

(** ** normalizeGeneratorOptions *)

Section Normalizing.
Import Generator Naming Normalize.
Context {T : Type} `{GeneratorCLIOptions T} `{Devkit} `{StringMethods}.

Lemma name_character_not_slash c : name_character c = true → Ascii.eqb c "/" = false.
Proof.
  intros Hc. destruct (Ascii.eqb_spec c "/") as [->|]; [|reflexivity].
  discriminate.
Qed.

Lemma name_pattern_no_slash s :
  every_character name_character s = true → occurs "/" s = false.
Proof.
  induction s as [|c rest IH]; simpl; [reflexivity|].
  intros [Hc Hrest]%andb_prop.
  now rewrite (name_character_not_slash _ Hc), (IH Hrest).
Qed.

Lemma split_without_separator_last sep s :
  occurs sep s = false → at_last (split sep s) = Some s.
Proof. intros Hfree. now rewrite split_without_separator. Qed.

Lemma last_segment prefix (segment : string) :
  occurs "/" segment = false →
  at_last (split "/" (prefix +:+ "/" +:+ segment)) = Some segment.
Proof.
  intros Hfree. change ("/" +:+ segment) with (String "/" segment).
  now rewrite at_last_split_qualified, split_without_separator.
Qed.

(** X19: a name made of letters, digits, hyphens and underscores is kept
    as it is, whatever the devkit would make of it: it is the project
    name, and it is the last segment of the project root, below the
    directory when one is given. *)
Theorem valid_name_is_kept projectType host (opts : T) :
  test_name_pattern (name opts) = true →
  let normalized := (normalizeGeneratorOptions projectType host opts).2 in
  projectName normalized = name opts ∧
  at_last (split "/" (projectDirectory normalized)) = Some (name opts) ∧
  at_last (split "/" (projectRoot normalized)) = Some (name opts).
Proof.
  intros Hvalid normalized. subst normalized.
  unfold normalizeGeneratorOptions.
  cbn [snd projectName projectDirectory projectRoot]. rewrite Hvalid.
  assert (Hfree : occurs "/" (name opts) = false).
  { apply name_pattern_no_slash. unfold test_name_pattern in Hvalid.
    now destruct (name opts). }
  split; [reflexivity|].
  destruct (directory opts) as [d|]; [destruct (truthy d)|].
  - split; [now apply last_segment|].
    match goal with
    | |- context [?r +:+ "/" +:+ ?f +:+ "/" +:+ ?n] =>
        replace (r +:+ "/" +:+ f +:+ "/" +:+ n)
          with ((r +:+ "/" +:+ f) +:+ "/" +:+ n)
          by now rewrite !append_assoc
    end.
    now apply last_segment.
  - split; [now apply split_without_separator_last|now apply last_segment].
  - split; [now apply split_without_separator_last|now apply last_segment].
Qed.

Lemma length_split sep s : length (split sep s) = S (occurrences sep s).
Proof.
  induction s as [|c rest IH]; simpl; [reflexivity|].
  destruct (Ascii.eqb c sep); simpl; [now rewrite IH|].
  destruct (split sep rest); [discriminate | exact IH].
Qed.

(** X20: without [tags] there are no parsed tags; with [tags] there is one
    parsed tag more than there are commas, so the empty string gives one
    tag, not none. *)
Theorem parsed_tags_count projectType host (opts : T) :
  length (parsedTags (normalizeGeneratorOptions projectType host opts).2) =
    match tags opts with
    | Some t => S (occurrences "," t)
    | None => 0
    end.
Proof.
  unfold normalizeGeneratorOptions. cbn [snd parsedTags].
  destruct (tags opts) as [t|]; [|reflexivity].
  now rewrite length_fmap, length_split.
Qed.

Lemma prefix_append (a b : string) : String.prefix a (a +:+ b) = true.
Proof.
  induction a as [|c a IH]; [now destruct b|].
  change (String c a +:+ b) with (String c (a +:+ b)). simpl.
  destruct (ascii_dec c c); [exact IH | contradiction].
Qed.

(** The project root lies below the layout's directory for the kind
    of the project: the applications directory for an application, the
    libraries directory for a library. *)
Theorem project_root_below_layout projectType host (opts : T) :
  startsWith (projectRoot (normalizeGeneratorOptions projectType host opts).2)
    (match projectType with
     | application => appsDir (nrwlGetWorkspaceLayout host)
     | library => libsDir (nrwlGetWorkspaceLayout host)
     end +:+ "/") = true.
Proof.
  unfold normalizeGeneratorOptions, startsWith. cbn [snd projectRoot].
  rewrite <- append_assoc. apply prefix_append.
Qed.

End Normalizing.

Lemma valid_name_is_kept_witness :
  let normalized :=
    (@Normalize.normalizeGeneratorOptions _ NormalizeSamples.CLIOptions_fields
       NormalizeSamples.plain_devkit NormalizeSamples.plain_strings
       library ∅ NormalizeSamples.my_crate).2 in
  Generator.projectName normalized = "my_crate-2" ∧
  at_last (split "/" (Generator.projectDirectory normalized)) = Some "my_crate-2" ∧
  at_last (split "/" (Generator.projectRoot normalized)) = Some "my_crate-2".
Proof.
  apply (@valid_name_is_kept _ NormalizeSamples.CLIOptions_fields
           NormalizeSamples.plain_devkit NormalizeSamples.plain_strings
           library ∅ NormalizeSamples.my_crate).
  reflexivity.
Defined.
